(** * AwsController: the orchestration facade of the attack range

    A shallow embedding of [modules/aws_controller.py].  Every method of
    [AwsController] is a sequence of calls into collaborators (the cloud
    service helper [aws_service], the infrastructure tool, the image
    builder, the log platform, the simulation controllers) interleaved
    with logging and printing.  A method is embedded as a computation
    that, started after a given history of interactions, yields an
    outcome (a return value, [sys.exit], a raised exception, or no
    return at all) and the list of events it emitted, in order. *)

From Stdlib Require Import List String Ascii ZArith Bool Lia DecimalString.
Import ListNotations.
Open Scope string_scope.

Set Implicit Arguments.

(** ** Strings of the source *)

(** The escapes [\n] and [\t] of the Python literals. *)
Definition nl : string := String (ascii_of_nat 10) EmptyString.
Definition tab : string := String (ascii_of_nat 9) EmptyString.

(** [s.startswith(p)] *)
Definition startswith (s p : string) : bool := String.prefix p s.

(** ** Data *)

(** The configuration dictionary, [config[section][key]]; a field
    [section_key] stands for [config['section']['key']].  The entries of
    [windows_servers] and [linux_servers] are dictionaries of which the
    controller reads ['image']. *)
Record server := { image : string }.

Record config := {
  aws_region : string;
  aws_private_key_path : string;
  general_key_name : string;
  general_attack_range_name : string;
  general_attack_range_password : string;
  splunk_server_image : string;
  splunk_server_install_es : string;
  windows_servers : list server;
  linux_servers : list server;
  nginx_server_nginx_server : string;
  nginx_server_image : string;
  simulation_prelude : string
}.

(** The dictionary [aws_service.ami_available_other_region] answers with
    when it finds the image; a falsy answer is [None]. *)
Record ami_result := { region : string; image_id : string }.

(** An instance description as [aws_service.get_all_instances] returns
    it: the controller reads [instance['State']['Name']],
    [instance['Tags'][0]['Value']] and
    [instance['NetworkInterfaces'][0]['Association']['PublicIp']]. *)
Record tag := { Key : string; Value : string }.
Record association := { PublicIp : string }.
Record network_interface := { Association : option association }.
Record instance := {
  Tags : list tag;
  State_Name : string;
  NetworkInterfaces : list network_interface
}.

(** The exceptions that occur. *)
Inductive exn : Type :=
| IndexError
| KeyError (key : string)
| OSError
| IsADirectoryError
| KeyboardInterrupt
| UnboundLocalError (name : string).

(** A run of the image builder as the reading loop of [packer] sees it.
    A builder that exits: the lines [readline] returns while [poll]
    still answers [None], the line it returns in the iteration in which
    [poll] reports the exit, and the exit status.  A builder that never
    exits: the lines read of it, after which the loop goes on for ever
    without another line. *)
Inductive process : Type :=
| Exits (running_lines : list string) (final_line : string) (returncode : Z)
| NeverExits (running_lines : list string).

Definition lines_read (p : process) : list string :=
  match p with
  | Exits running_lines _ _ => running_lines
  | NeverExits running_lines => running_lines
  end.

(** The values [replay] stores in the dictionary [ansible_vars], and
    the dictionary itself, in insertion order. *)
Inductive pyvalue : Type :=
| PyStr (s : string)
| PyInt (n : Z).

Definition pydict := list (string * pyvalue).

(** ** Events *)

Inductive event : Type :=
| AttackRangeController_init (cfg : config)
| LogInfo (msg : string)
| LogError (msg : string)
| Print (s : string)
| PrintBytes (b : string)
| PrintTable (rows : list (list string)) (headers : list string)
| CheckRegion (r : string) (answer : bool)
| Terraform (working_dir : string) (variables : config) (parallelism : Z)
| TerraformApply (tf : string * config * Z) (return_code : Z)
| TerraformDestroy (tf : string * config * Z) (return_code : Z)
| AmiAvailable (img r : string) (answer : bool)
| AmiAvailableOtherRegion (img : string) (answer : option ami_result)
| CopyImage (img src_image_id src_region dst_region : string)
| Popen (argv : list string) (answer : exn + process)
| GetAllInstances (key_name ar_name r : string) (answer : list instance)
| GetSingleInstancePublicIp (name key_name ar_name r : string) (answer : string)
| ChangeEc2State (instances : list instance) (new_state : string) (r : string)
| ArtSimulate (cfg : config) (target technique : string)
| PurplesharpSimulate (cfg : config) (target technique playbook : string)
| OpenFile (path mode : string)
| ReadFile (path : string) (answer : option string)
| ExportSearch (host s password out : string)
| CloseFile (path : string)
| AnsibleRun (private_data_dir cmdline roles_path playbook : string)
             (extravars : pydict).

Definition history := list event.

(** The collaborators, taken as parameters: each answer may depend on
    everything that happened before the call. *)
Record environment := {
  module_dir : string;  (* os.path.dirname(__file__) *)
  check_region : history -> string -> bool;
  ami_available : history -> string -> string -> bool;
  ami_available_other_region : history -> string -> option ami_result;
  terraform_apply : history -> Z;
  terraform_destroy : history -> Z;
  popen : history -> list string -> exn + process;  (* raised, or started *)
  open_file : history -> string -> string -> option exn;  (* raised, if any *)
  export_search :
    history -> string -> string -> string -> string -> option exn;
  get_all_instances : history -> string -> string -> string -> list instance;
  get_single_instance_public_ip :
    history -> string -> string -> string -> string -> string;
  read_file : history -> string -> option string
}.

(** ** Outcomes and the monad of methods *)

Inductive outcome (A : Type) : Type :=
| Returned (a : A)
| SysExit (code : Z)
| Raised (e : exn)
| NeverReturns.

Arguments Returned {A} a.
Arguments SysExit {A} code.
Arguments Raised {A} e.
Arguments NeverReturns {A}.

(** A computation maps the history before it to its outcome and the
    events it emits. *)
Definition M (A : Type) : Type := history -> outcome A * list event.

Definition ret {A} (a : A) : M A := fun _ => (Returned a, []).

Definition bind {A B} (m : M A) (f : A -> M B) : M B :=
  fun h =>
    let (o, e1) := m h in
    match o with
    | Returned a => let (o', e2) := f a (h ++ e1)%list in (o', (e1 ++ e2)%list)
    | SysExit c => (SysExit c, e1)
    | Raised x => (Raised x, e1)
    | NeverReturns => (NeverReturns, e1)
    end.

Notation "x <- m ;; k" := (bind m (fun x => k))
  (at level 61, m at next level, right associativity).
Notation "m ;; k" := (bind m (fun _ => k))
  (at level 61, right associativity).

Definition emit (e : event) : M unit := fun _ => (Returned tt, [e]).

(** A call whose answer the environment chooses from the history. *)
Definition ask {A} (answer : history -> A) (e : A -> event) : M A :=
  fun h => (Returned (answer h), [e (answer h)]).

Definition sys_exit {A} (code : Z) : M A := fun _ => (SysExit code, []).
Definition raise {A} (x : exn) : M A := fun _ => (Raised x, []).
Definition never_returns {A} : M A := fun _ => (NeverReturns, []).

(** A call that the environment may let fail: the event of the call,
    then the exception, if any. *)
Definition attempt (e : event) (failure : history -> option exn) : M unit :=
  fun h =>
    (match failure h with
     | Some x => Raised x
     | None => Returned tt
     end, [e]).

Definition logger_info (msg : string) : M unit := emit (LogInfo msg).
Definition logger_error (msg : string) : M unit := emit (LogError msg).
Definition print (s : string) : M unit := emit (Print s).

(** [for x in xs: body(x)] *)
Fixpoint for_each {A} (xs : list A) (body : A -> M unit) : M unit :=
  match xs with
  | [] => ret tt
  | x :: xs' => body x ;; for_each xs' body
  end.

(** [os.path.join(a, b)] of posixpath. *)
Definition endswith_sep (s : string) : bool :=
  match rev (list_ascii_of_string s) with
  | c :: _ => Ascii.eqb c "/"%char
  | [] => false
  end.

Definition os_path_join (a b : string) : string :=
  if startswith b "/" then b
  else if (String.eqb a "" || endswith_sep a)%bool then a ++ b
  else a ++ "/" ++ b.

(** [bytes.strip()]: leading and trailing ASCII whitespace removed. *)
Definition is_space (c : ascii) : bool :=
  let n := nat_of_ascii c in
  ((9 <=? n) && (n <=? 13) || (n =? 32))%nat%bool.

Fixpoint lstrip_chars (l : list ascii) : list ascii :=
  match l with
  | c :: l' => if is_space c then lstrip_chars l' else l
  | [] => []
  end.

Definition strip (b : string) : string :=
  string_of_list_ascii
    (rev (lstrip_chars (rev (lstrip_chars (list_ascii_of_string b))))).

(** Truth value of a string or bytes object: non-empty. *)
Definition truthy (s : string) : bool := negb (String.eqb s "").

(** ** The controller *)

(** [self.config] and [self.terraform]; the handle is the triple
    [working_dir], [variables], [parallelism] it was created with. *)
Record AwsController := {
  self_config : config;
  self_terraform : string * config * Z
}.

Section Controller.

Variable env : environment.

(** [__init__] *)
Definition init (cfg : config) : M AwsController :=
  emit (AttackRangeController_init cfg) ;;
  ok <- ask (fun h => check_region env h (aws_region cfg))
            (CheckRegion (aws_region cfg)) ;;
  (if negb ok then
     logger_error "AWS cli region and region in config file are not the same." ;;
     sys_exit 1
   else ret tt) ;;
  let working_dir := os_path_join (module_dir env) "../terraform/aws" in
  emit (Terraform working_dir cfg 15) ;;
  ret {| self_config := cfg; self_terraform := (working_dir, cfg, 15%Z) |}.

Variable self : AwsController.
Let cfg := self_config self.

(** [stop] and [resume] *)
Definition stop : M unit :=
  instances <- ask (fun h => get_all_instances env h (general_key_name cfg)
                               (general_attack_range_name cfg) (aws_region cfg))
                   (GetAllInstances (general_key_name cfg)
                      (general_attack_range_name cfg) (aws_region cfg)) ;;
  emit (ChangeEc2State instances "stopped" (aws_region cfg)).

Definition resume : M unit :=
  instances <- ask (fun h => get_all_instances env h (general_key_name cfg)
                               (general_attack_range_name cfg) (aws_region cfg))
                   (GetAllInstances (general_key_name cfg)
                      (general_attack_range_name cfg) (aws_region cfg)) ;;
  emit (ChangeEc2State instances "running" (aws_region cfg)).

(** [simulate] *)
Definition simulate (engine target technique playbook : string) : M unit :=
  logger_info ("[action] > simulate" ++ nl) ;;
  (if String.eqb engine "ART" then
     emit (ArtSimulate cfg target technique)
   else ret tt) ;;
  (if String.eqb engine "PurpleSharp" then
     emit (PurplesharpSimulate cfg target technique playbook)
   else ret tt).

(** [destroy] *)
Definition destroy : M unit :=
  logger_info ("[action] > destroy" ++ nl) ;;
  return_code <- ask (terraform_destroy env)
                     (TerraformDestroy (self_terraform self)) ;;
  logger_info "attack_range has been destroy using terraform successfully".

(** [packer]: the choice of [only_cmd_arg] and [path_packer_file]. *)
Definition packer_select (image_name : string) : string * string :=
  if startswith image_name "splunk" then
    ("amazon-ebs.splunk-ubuntu-18-04",
     "packer/splunk_server/splunk-ubuntu.pkr.hcl")
  else if startswith image_name "linux" then
    ("amazon-ebs.ubuntu-18-04",
     "packer/linux_server/linux-ubuntu-18-04.pkr.hcl")
  else if startswith image_name "nginx" then
    ("amazon-ebs.nginx-web-proxy",
     "packer/nginx_server/nginx_web_proxy.pkr.hcl")
  else if startswith image_name "windows-2016" then
    ("amazon-ebs.windows", "packer/windows_server/windows_2016.pkr.hcl")
  else if startswith image_name "windows-2019" then
    ("amazon-ebs.windows", "packer/windows_server/windows_2019.pkr.hcl")
  else ("", "").

(** One iteration of the reading loop in which the builder still runs. *)
Definition packer_line (output : string) : M unit :=
  if truthy output then emit (PrintBytes (strip output)) else ret tt.

(** The builder is started and then read line by line until [poll]
    reports its exit.  [Popen] may raise: the handler catches
    [KeyboardInterrupt] only, and what it does then is to use
    [process], which has not been bound; any other exception goes
    through.  A builder that never exits keeps the loop going. *)
Definition packer (image_name : string) : M unit :=
  logger_info ("Create golden image for " ++ image_name
               ++ ". This can take up to 30 minutes." ++ nl) ;;
  let (only_cmd_arg, path_packer_file) := packer_select image_name in
  (if String.eqb only_cmd_arg "" then
     logger_error "Image not supported." ;;
     sys_exit 1
   else ret tt) ;;
  let argv := ["packer"; "build"; "-force"; "-only=" ++ only_cmd_arg;
               path_packer_file] in
  answer <- ask (fun h => popen env h argv) (Popen argv) ;;
  match answer with
  | inl KeyboardInterrupt => raise (UnboundLocalError "process")
  | inl e => raise e
  | inr proc =>
      for_each (lines_read proc) packer_line ;;
      match proc with
      | Exits _ _ _ => ret tt
      | NeverExits _ => never_returns
      end
  end.

(** [get_prelude_token] *)
Definition get_prelude_token (token_path : string) : M string :=
  content <- ask (fun h => read_file env h token_path) (ReadFile token_path) ;;
  match content with
  | Some token => ret token
  | None =>
      logger_error ("was not able to read prelude token from " ++ token_path) ;;
      ret ""
  end.

(** [show]: the variables the loop over the instances updates. *)
Record show_vars := {
  response : list (list string);
  messages : list string;
  instances_running : bool;
  splunk_ip : string
}.

(** [instance['Tags'][0]['Value']] *)
Definition Tags_0_Value (i : instance) : M string :=
  match Tags i with
  | t :: _ => ret (Value t)
  | [] => raise IndexError
  end.

(** [instance['NetworkInterfaces'][0]['Association']['PublicIp']] *)
Definition NetworkInterfaces_0_PublicIp (i : instance) : M string :=
  match NetworkInterfaces i with
  | ni :: _ =>
      match Association ni with
      | Some a => ret (PublicIp a)
      | None => raise (KeyError "Association")
      end
  | [] => raise IndexError
  end.

Definition ssh_line (user ip : string) : string :=
  nl ++ tab ++ "SSH > ssh -i" ++ aws_private_key_path cfg ++ " " ++ user
     ++ "@" ++ ip.

Definition credentials (user : string) : string :=
  nl ++ tab ++ "username: " ++ user ++ " " ++ nl ++ tab ++ "password: "
     ++ general_attack_range_password cfg.

(** The body of the loop of [show]. *)
Definition show_instance (v : show_vars) (i : instance) : M show_vars :=
  if String.eqb (State_Name i) "running" then
    name <- Tags_0_Value i ;;
    ip <- NetworkInterfaces_0_PublicIp i ;;
    let v1 := {| response := (response v ++ [[name; State_Name i; ip]])%list;
                 messages := messages v;
                 instances_running := true;
                 splunk_ip := splunk_ip v |} in
    let add (msg : string) (sip : string) :=
      ret {| response := response v1;
             messages := (messages v1 ++ [msg])%list;
             instances_running := instances_running v1;
             splunk_ip := sip |} in
    if startswith name "ar-splunk" then
      if String.eqb (splunk_server_install_es cfg) "1" then
        add (nl ++ "Access Splunk via:" ++ nl ++ tab ++ "Web > https://" ++ ip
             ++ ":8000" ++ ssh_line "ubuntu" ip ++ credentials "admin") ip
      else
        add (nl ++ "Access Splunk via:" ++ nl ++ tab ++ "Web > http://" ++ ip
             ++ ":8000" ++ ssh_line "ubuntu" ip ++ credentials "admin") ip
    else if startswith name "ar-phantom" then
      add (nl ++ "Access Phantom via:" ++ nl ++ tab ++ "Web > https://" ++ ip
           ++ ssh_line "centos" ip ++ credentials "admin") (splunk_ip v1)
    else if startswith name "ar-win" then
      add (nl ++ "Access Windows via:" ++ nl ++ tab ++ "RDP > rdp://" ++ ip
           ++ ":3389" ++ credentials "Administrator") (splunk_ip v1)
    else if startswith name "ar-linux" then
      add (nl ++ "Access Linux via:" ++ ssh_line "ubuntu" ip
           ++ credentials "ubuntu") (splunk_ip v1)
    else if startswith name "ar-kali" then
      add (nl ++ "Access Kali via:" ++ ssh_line "kali" ip
           ++ credentials "kali") (splunk_ip v1)
    else if startswith name "ar-nginx" then
      add (nl ++ "Access Nginx Web Proxy via:" ++ ssh_line "ubuntu" ip
           ++ credentials "kali") (splunk_ip v1)
    else ret v1
  else
    name <- Tags_0_Value i ;;
    ret {| response := (response v ++ [[name; State_Name i]])%list;
           messages := messages v;
           instances_running := instances_running v;
           splunk_ip := splunk_ip v |}.

Fixpoint show_loop (instances : list instance) (v : show_vars) : M show_vars :=
  match instances with
  | [] => ret v
  | i :: rest => v' <- show_instance v i ;; show_loop rest v'
  end.

Definition show : M unit :=
  logger_info ("[action] > show" ++ nl) ;;
  instances <- ask (fun h => get_all_instances env h (general_key_name cfg)
                               (general_attack_range_name cfg) (aws_region cfg))
                   (GetAllInstances (general_key_name cfg)
                      (general_attack_range_name cfg) (aws_region cfg)) ;;
  v <- show_loop instances
         {| response := []; messages := []; instances_running := false;
            splunk_ip := "" |} ;;
  msgs <- (if String.eqb (simulation_prelude cfg) "1" then
             prelude_token <- get_prelude_token "/var/tmp/.prelude_session_token" ;;
             ret (messages v ++
                  [(nl ++ "Access Prelude Operator UI via:" ++ nl ++ tab
                   ++ "redirector FQDN > " ++ splunk_ip v ++ nl ++ tab
                   ++ "Token: " ++ prelude_token ++ nl ++ tab
                   ++ "See guide details: https://github.com/splunk/attack_range/wiki/Prelude-Operator")%string])%list
           else ret (messages v)) ;;
  print "" ;;
  print ("Status Virtual Machines" ++ nl) ;;
  if (0 <? List.length (response v))%nat then
    (if instances_running v then
       emit (PrintTable (response v) ["Name"; "Status"; "IP Address"]) ;;
       for_each msgs print
     else
       emit (PrintTable (response v) ["Name"; "Status"])) ;;
    print ""
  else
    print "ERROR: Can't find configured Attack Range Instances".

(** [build]: the list [images]. *)
Definition build_images : list string :=
  let images := [] in
  let images := (images ++ [splunk_server_image cfg])%list in
  let images :=
    fold_left (fun images windows_server => (images ++ [image windows_server])%list)
              (windows_servers cfg) images in
  let images :=
    fold_left (fun images linux_server => (images ++ [image linux_server])%list)
              (linux_servers cfg) images in
  if String.eqb (nginx_server_nginx_server cfg) "1" then
    (images ++ [nginx_server_image cfg])%list
  else images.

(** [build]: the body of the loop over [images]. *)
Definition build_image (img : string) : M unit :=
  available <- ask (fun h => ami_available env h img (aws_region cfg))
                   (AmiAvailable img (aws_region cfg)) ;;
  if negb available then
    logger_info ("Image " ++ img ++ " is not available in region "
                 ++ aws_region cfg) ;;
    logger_info ("Checking if image " ++ img
                 ++ " is available in other regions.") ;;
    result <- ask (fun h => ami_available_other_region env h img)
                  (AmiAvailableOtherRegion img) ;;
    match result with
    | Some found =>
        logger_info ("Found image " ++ img ++ " in region " ++ region found
                     ++ ". Copy it to region " ++ aws_region cfg) ;;
        emit (CopyImage img (image_id found) (region found) (aws_region cfg))
    | None =>
        logger_info ("Image " ++ img ++ " need to be built with packer.") ;;
        packer img
    end
  else
    logger_info ("Image " ++ img ++ " is available in region "
                 ++ aws_region cfg).

Definition build : M unit :=
  logger_info ("[action] > build" ++ nl) ;;
  let images := build_images in
  logger_info ("Check if images are available in region " ++ aws_region cfg) ;;
  for_each images build_image ;;
  return_code <- ask (terraform_apply env)
                     (TerraformApply (self_terraform self)) ;;
  (if (return_code =? 0)%Z then
     logger_info "attack_range has been built using terraform successfully"
   else ret tt) ;;
  show.

(** [open(path, 'wb')]: a path that ends with the separator names a
    directory and cannot be opened for writing; any other path is opened
    unless the environment lets the call fail. *)
Definition open_wb (path : string) : M unit :=
  attempt (OpenFile path "wb")
          (fun h => if endswith_sep path then Some IsADirectoryError
                    else open_file env h path "wb").

(** [dump] *)
Definition dump (dump_name search earliest latest : string) : M unit :=
  logger_info "Dump log data" ;;
  let dump_search := "search " ++ search ++ " earliest=-" ++ earliest
                     ++ " latest=" ++ latest ++ " | sort 0 _time" in
  logger_info ("Dumping Splunk Search: " ++ dump_search) ;;
  let out := os_path_join (module_dir env) ("../" ++ dump_name) in
  open_wb out ;;
  let splunk_instance := "ar-splunk-" ++ general_key_name cfg ++ "-"
                         ++ general_attack_range_name cfg in
  host <- ask (fun h => get_single_instance_public_ip env h splunk_instance
                          (general_key_name cfg)
                          (general_attack_range_name cfg) (aws_region cfg))
              (GetSingleInstancePublicIp splunk_instance (general_key_name cfg)
                 (general_attack_range_name cfg) (aws_region cfg)) ;;
  attempt (ExportSearch host dump_search (general_attack_range_password cfg)
             out)
          (fun h => export_search env h host dump_search
                      (general_attack_range_password cfg) out) ;;
  emit (CloseFile out) ;;
  logger_info "[Completed]".

End Controller.

(** ** A concrete range, used to exercise the definitions *)

Definition demo_config : config := {|
  aws_region := "eu-central-1";
  aws_private_key_path := "~/.ssh/id_rsa";
  general_key_name := "attack-range-key-pair";
  general_attack_range_name := "default";
  general_attack_range_password := "Pl3ase-k1Ll-me:p";
  splunk_server_image := "splunk-v3-0-0";
  splunk_server_install_es := "0";
  windows_servers := [{| image := "windows-2016-v3-0-0" |}];
  linux_servers := [{| image := "linux-v3-0-0" |}];
  nginx_server_nginx_server := "1";
  nginx_server_image := "nginx-web-proxy-v3-0-0";
  simulation_prelude := "0"
|}.

Definition demo_splunk : instance := {|
  Tags := [{| Key := "Name"; Value := "ar-splunk-attack-range-key-pair-default" |}];
  State_Name := "running";
  NetworkInterfaces := [{| Association := Some {| PublicIp := "18.0.0.1" |} |}]
|}.

Definition demo_win : instance := {|
  Tags := [{| Key := "Name"; Value := "ar-win-attack-range-key-pair-default-0" |}];
  State_Name := "stopped";
  NetworkInterfaces := [{| Association := None |}]
|}.

(** The splunk image is in the region, the linux image is found in
    another region, every other image has to be built; the builder
    prints two lines and a blank one before it exits. *)
Definition demo_env : environment := {|
  module_dir := "/opt/attack_range/modules";
  check_region := fun _ r => String.eqb r "eu-central-1";
  ami_available := fun _ img _ => startswith img "splunk";
  ami_available_other_region := fun _ img =>
    if startswith img "linux"
    then Some {| region := "us-west-2"; image_id := "ami-0123" |}
    else None;
  terraform_apply := fun _ => 0%Z;
  terraform_destroy := fun _ => 1%Z;
  popen := fun _ _ =>
    inr (Exits ["==> amazon-ebs: Creating AMI" ++ nl; nl; "";
                "  Build finished." ++ nl]
               "trailing" 0%Z);
  open_file := fun _ _ _ => None;
  export_search := fun _ _ _ _ _ => None;
  get_all_instances := fun _ _ _ _ => [demo_splunk; demo_win];
  get_single_instance_public_ip := fun _ _ _ _ _ => "18.0.0.1";
  read_file := fun _ _ => None
|}.

Definition demo_self : AwsController := {|
  self_config := demo_config;
  self_terraform := ("/opt/attack_range/modules/../terraform/aws", demo_config, 15%Z)
|}.

(** ** Vocabulary of the statements *)

(** The events [es] followed by the run [r]. *)
Definition after {A} (es : list event) (r : outcome A * list event)
  : outcome A * list event :=
  (fst r, (es ++ snd r)%list).

(** The image families the builder helper knows. *)
Definition families : list string :=
  ["splunk"; "linux"; "nginx"; "windows-2016"; "windows-2019"].

Definition supported (image_name : string) : bool :=
  existsb (startswith image_name) families.



Definition is_apply (e : event) : bool :=
  match e with
  | TerraformApply _ _ => true
  | _ => false
  end.

(** Neither a terraform apply nor the success message of [build]. *)
Definition before_apply (e : event) : bool :=
  match e with
  | TerraformApply _ _ => false
  | LogInfo msg =>
      negb (String.eqb msg
              "attack_range has been built using terraform successfully")
  | _ => true
  end.

(** What [show] reads of an instance. *)
Definition is_running (i : instance) : bool :=
  String.eqb (State_Name i) "running".

Definition name_of (i : instance) : string :=
  match Tags i with
  | t :: _ => Value t
  | [] => ""
  end.

Definition public_ip_of (i : instance) : string :=
  match NetworkInterfaces i with
  | {| Association := Some a |} :: _ => PublicIp a
  | _ => ""
  end.

(** The instance has what [show] reads of it: a first tag and, when it
    runs, a public address on its first network interface. *)
Definition has_shape (i : instance) : bool :=
  match Tags i with
  | _ :: _ =>
      if is_running i then
        match NetworkInterfaces i with
        | {| Association := Some _ |} :: _ => true
        | _ => false
        end
      else true
  | [] => false
  end.

(** The row of an instance in the status table. *)
Definition row (i : instance) : list string :=
  if is_running i then [name_of i; State_Name i; public_ip_of i]
  else [name_of i; State_Name i].

(** The name prefixes [show] has connection information for. *)
Definition recognized (name : string) : bool :=
  existsb (startswith name)
    ["ar-splunk"; "ar-phantom"; "ar-win"; "ar-linux"; "ar-kali"; "ar-nginx"].

(** The connection message of an instance, as lines 154 to 166 of the
    source write it out: one message for a running instance whose name
    starts with one of the six prefixes, none for any other instance. *)
Definition connection_info (self : AwsController) (i : instance)
  : list string :=
  let name := name_of i in
  let ip := public_ip_of i in
  let key := aws_private_key_path (self_config self) in
  let password := general_attack_range_password (self_config self) in
  if negb (is_running i) then []
  else if startswith name "ar-splunk" then
    [nl ++ "Access Splunk via:" ++ nl ++ tab ++ "Web > "
     ++ (if String.eqb (splunk_server_install_es (self_config self)) "1"
         then "https://" else "http://")
     ++ ip ++ ":8000" ++ nl ++ tab ++ "SSH > ssh -i" ++ key ++ " ubuntu@" ++ ip
     ++ nl ++ tab ++ "username: admin " ++ nl ++ tab ++ "password: "
     ++ password]
  else if startswith name "ar-phantom" then
    [nl ++ "Access Phantom via:" ++ nl ++ tab ++ "Web > https://" ++ ip
     ++ nl ++ tab ++ "SSH > ssh -i" ++ key ++ " centos@" ++ ip
     ++ nl ++ tab ++ "username: admin " ++ nl ++ tab ++ "password: "
     ++ password]
  else if startswith name "ar-win" then
    [nl ++ "Access Windows via:" ++ nl ++ tab ++ "RDP > rdp://" ++ ip
     ++ ":3389" ++ nl ++ tab ++ "username: Administrator " ++ nl ++ tab
     ++ "password: " ++ password]
  else if startswith name "ar-linux" then
    [nl ++ "Access Linux via:" ++ nl ++ tab ++ "SSH > ssh -i" ++ key
     ++ " ubuntu@" ++ ip ++ nl ++ tab ++ "username: ubuntu " ++ nl ++ tab
     ++ "password: " ++ password]
  else if startswith name "ar-kali" then
    [nl ++ "Access Kali via:" ++ nl ++ tab ++ "SSH > ssh -i" ++ key
     ++ " kali@" ++ ip ++ nl ++ tab ++ "username: kali " ++ nl ++ tab
     ++ "password: " ++ password]
  else if startswith name "ar-nginx" then
    [nl ++ "Access Nginx Web Proxy via:" ++ nl ++ tab ++ "SSH > ssh -i" ++ key
     ++ " ubuntu@" ++ ip ++ nl ++ tab ++ "username: kali " ++ nl ++ tab
     ++ "password: " ++ password]
  else [].

(** The events of reading the prelude token. *)
Definition is_token_read (e : event) : bool :=
  match e with
  | ReadFile _ _ | LogError _ => true
  | _ => false
  end.

(** ** Replay *)

(** [d[k] = v]: the value of an existing key is replaced in place, a
    new key goes to the end. *)
Fixpoint dict_set (d : pydict) (k : string) (v : pyvalue) : pydict :=
  match d with
  | [] => [(k, v)]
  | (k', v') :: d' =>
      if String.eqb k' k then (k, v) :: d' else (k', v') :: dict_set d' k v
  end.

(** [d[k]], [None] standing for the [KeyError]. *)
Fixpoint dict_get (d : pydict) (k : string) : option pyvalue :=
  match d with
  | [] => None
  | (k', v) :: d' => if String.eqb k' k then Some v else dict_get d' k
  end.

(** What [%s] prints of a value. *)
Definition format_s (v : pyvalue) : string :=
  match v with
  | PyStr s => s
  | PyInt n => NilZero.string_of_int (Z.to_int n)
  end.

Section Replay.

Variable env : environment.
Variable self : AwsController.
Let cfg := self_config self.

(** [replay] *)
Definition replay (file_name index sourcetype source : string) : M unit :=
  let ansible_vars := [] in
  let ansible_vars := dict_set ansible_vars "file_name" (PyStr file_name) in
  let ansible_vars := dict_set ansible_vars "ansible_user" (PyStr "ubuntu") in
  let ansible_vars :=
    dict_set ansible_vars "ansible_ssh_private_key_file"
             (PyStr (aws_private_key_path cfg)) in
  let ansible_vars :=
    dict_set ansible_vars "attack_range_password"
             (PyStr (general_attack_range_password cfg)) in
  let ansible_vars := dict_set ansible_vars "ansible_port" (PyInt 22) in
  let ansible_vars := dict_set ansible_vars "sourcetype" (PyStr sourcetype) in
  let ansible_vars := dict_set ansible_vars "source" (PyStr source) in
  let ansible_vars := dict_set ansible_vars "index" (PyStr index) in
  let splunk_instance := "ar-splunk-" ++ general_key_name cfg ++ "-"
                         ++ general_attack_range_name cfg in
  splunk_ip <- ask (fun h => get_single_instance_public_ip env h splunk_instance
                               (general_key_name cfg)
                               (general_attack_range_name cfg) (aws_region cfg))
                   (GetSingleInstancePublicIp splunk_instance
                      (general_key_name cfg) (general_attack_range_name cfg)
                      (aws_region cfg)) ;;
  ansible_user <- match dict_get ansible_vars "ansible_user" with
                  | Some v => ret v
                  | None => raise (KeyError "ansible_user")
                  end ;;
  let cmdline := "-i " ++ splunk_ip ++ ", -u " ++ format_s ansible_user in
  emit (AnsibleRun (os_path_join (module_dir env) "../") cmdline
          (os_path_join (module_dir env) "ansible/roles")
          (os_path_join (module_dir env) "ansible/data_replay.yml")
          ansible_vars).

End Replay.

(** ** Further vocabulary *)

(** The status a run leaves the process with, if it ends it. *)
Definition exit_code {A} (o : outcome A) : option Z :=
  match o with
  | SysExit c => Some c
  | _ => None
  end.

(** The builder target and template of each family. *)
Definition family_table : list (string * (string * string)) :=
  [("splunk", ("amazon-ebs.splunk-ubuntu-18-04",
               "packer/splunk_server/splunk-ubuntu.pkr.hcl"));
   ("linux", ("amazon-ebs.ubuntu-18-04",
              "packer/linux_server/linux-ubuntu-18-04.pkr.hcl"));
   ("nginx", ("amazon-ebs.nginx-web-proxy",
              "packer/nginx_server/nginx_web_proxy.pkr.hcl"));
   ("windows-2016", ("amazon-ebs.windows",
                     "packer/windows_server/windows_2016.pkr.hcl"));
   ("windows-2019", ("amazon-ebs.windows",
                     "packer/windows_server/windows_2019.pkr.hcl"))].

(** The command lines the builder can be started with. *)
Definition packer_command_lines : list (list string) :=
  map (fun entry => ["packer"; "build"; "-force";
                     "-only=" ++ fst (snd entry); snd (snd entry)])
      family_table.

(** Events that only log, print, or read. *)
Definition observes (e : event) : bool :=
  match e with
  | LogInfo _ | LogError _ | Print _ | PrintTable _ _
  | GetAllInstances _ _ _ _ | ReadFile _ _ => true
  | _ => false
  end.

Definition is_output (e : event) : bool :=
  match e with
  | Print _ | PrintTable _ _ => true
  | _ => false
  end.

(** A range of which one image belongs to no family, and a region in
    which no image is to be found. *)
Definition demo_config_kali : config := {|
  aws_region := aws_region demo_config;
  aws_private_key_path := aws_private_key_path demo_config;
  general_key_name := general_key_name demo_config;
  general_attack_range_name := general_attack_range_name demo_config;
  general_attack_range_password := general_attack_range_password demo_config;
  splunk_server_image := splunk_server_image demo_config;
  splunk_server_install_es := splunk_server_install_es demo_config;
  windows_servers := windows_servers demo_config;
  linux_servers := [{| image := "kali-v3-0-0" |}];
  nginx_server_nginx_server := "0";
  nginx_server_image := nginx_server_image demo_config;
  simulation_prelude := "1"
|}.

Definition demo_self_kali : AwsController := {|
  self_config := demo_config_kali;
  self_terraform := self_terraform demo_self
|}.

Definition demo_env_with (available : bool) (instances : list instance)
  : environment := {|
  module_dir := module_dir demo_env;
  check_region := fun _ _ => false;
  ami_available := fun _ _ _ => available;
  ami_available_other_region := fun _ _ => None;
  terraform_apply := fun _ => 1%Z;
  terraform_destroy := terraform_destroy demo_env;
  popen := popen demo_env;
  open_file := open_file demo_env;
  export_search := export_search demo_env;
  get_all_instances := fun _ _ _ _ => instances;
  get_single_instance_public_ip := get_single_instance_public_ip demo_env;
  read_file := fun _ _ => Some "token-123"
|}.

(** What [build] may do: log, print and read; ask for the instances;
    ask whether an image of its list is available, in the configured
    region or elsewhere; copy an image of its list into the configured
    region; start the builder with one of its command lines; apply with
    its own terraform handle. *)
Definition build_may (self : AwsController) (e : event) : Prop :=
  match e with
  | LogInfo _ | LogError _ | Print _ | PrintBytes _ | PrintTable _ _
  | GetAllInstances _ _ _ _ | ReadFile _ _ => True
  | Popen argv _ => In argv packer_command_lines
  | AmiAvailable img r _ =>
      In img (build_images self) /\ r = aws_region (self_config self)
  | AmiAvailableOtherRegion img _ => In img (build_images self)
  | CopyImage img _ _ dst =>
      In img (build_images self) /\ dst = aws_region (self_config self)
  | TerraformApply tf _ => tf = self_terraform self
  | _ => False
  end.

(** A printed table is the table of the instances: one row per
    instance, in order; the three-column header exactly when one
    instance at least is running, the two-column header otherwise; and
    no row with fewer than two cells or more cells than the header. *)
Definition table_of (instances : list instance) (e : event) : Prop :=
  match e with
  | PrintTable rows headers =>
      rows = map row instances
      /\ headers = (if existsb is_running instances
                    then ["Name"; "Status"; "IP Address"]
                    else ["Name"; "Status"])
      /\ Forall (fun cells =>
                   (2 <= List.length cells <= List.length headers)%nat)
                rows
  | _ => True
  end.

(** The file an event opens, writes or closes, if any. *)
Definition file_of (e : event) : option string :=
  match e with
  | OpenFile path _ | CloseFile path | ExportSearch _ _ _ path => Some path
  | _ => None
  end.

(** The address [show] keeps in [splunk_ip]: that of the last running
    instance whose name starts with ["ar-splunk"], if there is one. *)
Definition last_splunk_ip (instances : list instance) (start : string)
  : string :=
  fold_left (fun sip i =>
               if (is_running i && startswith (name_of i) "ar-splunk")%bool
               then public_ip_of i else sip)
            instances start.

(** A line with no whitespace at either end. *)
Definition stripped (b : string) : Prop :=
  match list_ascii_of_string b with
  | c :: _ => is_space c = false
  | [] => True
  end
  /\ match rev (list_ascii_of_string b) with
     | c :: _ => is_space c = false
     | [] => True
     end.

Definition prints_stripped (e : event) : Prop :=
  match e with
  | PrintBytes b => stripped b
  | _ => True
  end.

(** ** The output of the builder *)

(** The whitespace [bytes.strip] removes: tab, line feed, vertical tab,
    form feed, carriage return and space. *)
Definition whitespace (c : ascii) : Prop :=
  In (nat_of_ascii c) [9; 10; 11; 12; 13; 32]%nat.

(** [out] is [line] without the whitespace at its two ends. *)
Definition trimmed (line out : string) : Prop :=
  exists before behind,
    list_ascii_of_string line =
      (before ++ list_ascii_of_string out ++ behind)%list
    /\ Forall whitespace before
    /\ Forall whitespace behind
    /\ match list_ascii_of_string out with
       | c :: _ => ~ whitespace c
       | [] => True
       end
    /\ match rev (list_ascii_of_string out) with
       | c :: _ => ~ whitespace c
       | [] => True
       end.

(** What is printed of the lines read, one line at a time and in their
    order: nothing for an empty read, the trimmed line for any other. *)
Inductive streamed : list string -> list string -> Prop :=
| streamed_end : streamed [] []
| streamed_empty (lines printed : list string) :
    streamed lines printed -> streamed ("" :: lines) printed
| streamed_line (line out : string) (lines printed : list string) :
    line <> "" -> trimmed line out -> streamed lines printed ->
    streamed (line :: lines) (out :: printed).

(** What leaves [packer] when [Popen] raises [e]. *)
Definition handled (e : exn) : exn :=
  match e with
  | KeyboardInterrupt => UnboundLocalError "process"
  | _ => e
  end.

(** How the reading loop ends on a builder. *)
Definition loop_end (p : process) : outcome unit :=
  match p with
  | Exits _ _ _ => Returned tt
  | NeverExits _ => NeverReturns
  end.

(** * Properties *)

(** ** Running a sequence *)

Lemma after_pair {A} (es es' : list event) (o : outcome A) :
  after es (o, es') = (o, (es ++ es')%list).
Proof. reflexivity. Qed.

Lemma after_after {A} (es es' : list event) (r : outcome A * list event) :
  after es (after es' r) = after (es ++ es')%list r.
Proof. unfold after; cbn. now rewrite app_assoc. Qed.

Lemma bind_ret {A B} (a : A) (k : A -> M B) (h : history) :
  (x <- ret a ;; k x) h = k a h.
Proof.
  unfold bind, ret. rewrite app_nil_r. now destruct (k a h).
Qed.

Lemma bind_emit {B} (e : event) (k : unit -> M B) (h : history) :
  (x <- emit e ;; k x) h = after [e] (k tt (h ++ [e])%list).
Proof. unfold bind, emit, after. now destruct (k tt (h ++ [e])%list). Qed.

Lemma bind_ask {A B} (f : history -> A) (e : A -> event) (k : A -> M B)
      (h : history) :
  (x <- ask f e ;; k x) h = after [e (f h)] (k (f h) (h ++ [e (f h)])%list).
Proof.
  unfold bind, ask, after. now destruct (k (f h) (h ++ [e (f h)])%list).
Qed.

Lemma bind_sys_exit {A B} (c : Z) (k : A -> M B) (h : history) :
  (x <- sys_exit c ;; k x) h = (SysExit c, []).
Proof. reflexivity. Qed.

Lemma bind_raise {A B} (x : exn) (k : A -> M B) (h : history) :
  (y <- raise x ;; k y) h = (Raised x, []).
Proof. reflexivity. Qed.

Lemma bind_assoc {A B C} (m : M A) (f : A -> M B) (g : B -> M C)
      (h : history) :
  (y <- (x <- m ;; f x) ;; g y) h = (x <- m ;; y <- f x ;; g y) h.
Proof.
  unfold bind. destruct (m h) as [[a|c|x|] e1]; try reflexivity.
  destruct (f a (h ++ e1)%list) as [[b|c|x|] e2]; try reflexivity.
  rewrite <- app_assoc.
  destruct (g b (h ++ e1 ++ e2)%list) as [o e3].
  now rewrite app_assoc.
Qed.

(** How a run of [m] continues into [k]. *)
Lemma bind_run {A B} (m : M A) (k : A -> M B) (h : history) :
  (x <- m ;; k x) h =
  match fst (m h) with
  | Returned a => after (snd (m h)) (k a (h ++ snd (m h))%list)
  | SysExit c => (SysExit c, snd (m h))
  | Raised x => (Raised x, snd (m h))
  | NeverReturns => (NeverReturns, snd (m h))
  end.
Proof.
  unfold bind, after. destruct (m h) as [[a|c|x|] e1]; cbn; try reflexivity.
  now destruct (k a (h ++ e1)%list).
Qed.

Lemma bind_never_returns {A B} (k : A -> M B) (h : history) :
  (x <- never_returns ;; k x) h = (NeverReturns, []).
Proof. reflexivity. Qed.

Lemma bind_attempt {B} (e : event) (failure : history -> option exn)
      (k : unit -> M B) (h : history) :
  (x <- attempt e failure ;; k x) h =
  match failure h with
  | Some x => (Raised x, [e])
  | None => after [e] (k tt (h ++ [e])%list)
  end.
Proof.
  unfold bind, attempt, after. destruct (failure h); [reflexivity|].
  now destruct (k tt (h ++ [e])%list).
Qed.

Ltac run_step :=
  first [ rewrite bind_assoc
        | rewrite bind_emit
        | rewrite bind_ask
        | rewrite bind_ret
        | rewrite bind_sys_exit
        | rewrite bind_raise
        | rewrite bind_never_returns ].

Ltac run :=
  unfold logger_info, logger_error, print;
  repeat run_step;
  repeat rewrite ?after_after, ?after_pair, <- ?app_assoc;
  cbn [app].

(** ** Construction *)

Example init_demo :
  init demo_env demo_config [] =
  (Returned demo_self,
   [AttackRangeController_init demo_config;
    CheckRegion "eu-central-1" true;
    Terraform "/opt/attack_range/modules/../terraform/aws" demo_config 15]).
Proof. reflexivity. Qed.

(** C3: construction checks the region first.  When the check fails
    the constructor logs the error and leaves through [sys.exit(1)],
    having emitted nothing else after the check (no terraform handle,
    no build, no destroy, no other operation); when it passes the
    constructor returns the controller, its last event being the
    creation of the terraform handle. *)
Theorem init_validates_region (env : environment) (cfg : config) (h : history) :
  let ok := check_region env (h ++ [AttackRangeController_init cfg])%list
                         (aws_region cfg) in
  let working_dir := os_path_join (module_dir env) "../terraform/aws" in
  init env cfg h =
  if ok then
    (Returned {| self_config := cfg;
                 self_terraform := (working_dir, cfg, 15%Z) |},
     [AttackRangeController_init cfg;
      CheckRegion (aws_region cfg) true;
      Terraform working_dir cfg 15])
  else
    (SysExit 1,
     [AttackRangeController_init cfg;
      CheckRegion (aws_region cfg) false;
      LogError "AWS cli region and region in config file are not the same."]).
Proof.
  intros ok working_dir. subst ok working_dir.
  unfold init, bind, emit, ask.
  destruct (check_region env (h ++ [AttackRangeController_init cfg])%list
              (aws_region cfg)); reflexivity.
Qed.

(** ** Power state *)

(** C5: [stop] and [resume] each fetch the instances of the configured
    key name, range name and region and then request a state for
    exactly the instances fetched: ['stopped'] for [stop], ['running']
    for [resume]; nothing else distinguishes the two. *)
Theorem stop_resume_change_state (env : environment) (self : AwsController)
        (h : history) :
  let cfg := self_config self in
  let instances := get_all_instances env h (general_key_name cfg)
                     (general_attack_range_name cfg) (aws_region cfg) in
  let fetch := GetAllInstances (general_key_name cfg)
                 (general_attack_range_name cfg) (aws_region cfg) instances in
  stop env self h =
    (Returned tt, [fetch; ChangeEc2State instances "stopped" (aws_region cfg)])
  /\ resume env self h =
    (Returned tt, [fetch; ChangeEc2State instances "running" (aws_region cfg)]).
Proof. split; reflexivity. Qed.

(** ** Simulation *)

(** C6: engine ["ART"] runs the ART controller on (target, technique)
    and engine ["PurpleSharp"] the PurpleSharp controller on (target,
    technique, playbook); in either case the other controller is not
    run. *)
Theorem simulate_dispatch (self : AwsController)
        (target technique playbook : string) (h : history) :
  simulate self "ART" target technique playbook h =
    (Returned tt,
     [LogInfo ("[action] > simulate" ++ nl);
      ArtSimulate (self_config self) target technique])
  /\ simulate self "PurpleSharp" target technique playbook h =
    (Returned tt,
     [LogInfo ("[action] > simulate" ++ nl);
      PurplesharpSimulate (self_config self) target technique playbook]).
Proof. split; reflexivity. Qed.

(** C9: for any other engine [simulate] only logs its action line and
    returns normally. *)
Theorem simulate_unknown_engine (self : AwsController)
        (engine target technique playbook : string) (h : history) :
  engine <> "ART" -> engine <> "PurpleSharp" ->
  simulate self engine target technique playbook h =
    (Returned tt, [LogInfo ("[action] > simulate" ++ nl)]).
Proof.
  intros Hart Hps. unfold simulate, bind, logger_info, emit, ret.
  apply String.eqb_neq in Hart. apply String.eqb_neq in Hps.
  rewrite Hart, Hps. reflexivity.
Qed.

Lemma simulate_unknown_engine_witness :
  simulate demo_self "Caldera" "ar-win" "T1003.001" "" [] =
    (Returned tt, [LogInfo ("[action] > simulate" ++ nl)]).
Proof.
  apply (simulate_unknown_engine demo_self (engine := "Caldera"));
    apply String.eqb_neq; reflexivity.
Defined.

(** ** The image builder helper *)

Lemma prefix_nil (s : string) : String.prefix "" s = true.
Proof. destruct s; reflexivity. Qed.

Lemma packer_select_supported (image_name : string) :
  String.eqb (fst (packer_select image_name)) "" = negb (supported image_name).
Proof.
  unfold packer_select, supported, families, existsb.
  destruct (startswith image_name "splunk"); [reflexivity|].
  destruct (startswith image_name "linux"); [reflexivity|].
  destruct (startswith image_name "nginx"); [reflexivity|].
  destruct (startswith image_name "windows-2016"); [reflexivity|].
  destruct (startswith image_name "windows-2019"); reflexivity.
Qed.

(** The reading loop prints, in order, the stripped form of every
    non-empty line read while the builder runs. *)
Lemma for_each_packer_line (lines : list string) (h : history) :
  for_each lines packer_line h =
  (Returned tt, map PrintBytes (map strip (filter truthy lines))).
Proof.
  revert h. induction lines as [|l lines IH]; intros h; [reflexivity|].
  cbn [for_each filter]. unfold bind at 1. unfold packer_line at 1.
  destruct (truthy l); cbn [emit ret]; rewrite IH; reflexivity.
Qed.

(** What [packer] does, image by image family, builder by builder. *)
Lemma packer_run (env : environment) (img : string) (h : history) :
  let announce :=
    LogInfo ("Create golden image for " ++ img
             ++ ". This can take up to 30 minutes." ++ nl) in
  let argv := ["packer"; "build"; "-force";
               "-only=" ++ fst (packer_select img);
               snd (packer_select img)] in
  let answer := popen env (h ++ [announce])%list argv in
  packer env img h =
  if supported img then
    match answer with
    | inl e => (Raised (handled e), [announce; Popen argv answer])
    | inr proc =>
        (loop_end proc,
         announce :: Popen argv answer
           :: map PrintBytes (map strip (filter truthy (lines_read proc))))
    end
  else
    (SysExit 1, [announce; LogError "Image not supported."]).
Proof.
  cbv zeta. pose proof (packer_select_supported img) as Hsel.
  unfold packer. destruct (packer_select img) as [target template].
  cbn [fst snd] in *. rewrite Hsel.
  destruct (supported img); cbn [negb]; run; [|reflexivity].
  destruct (popen env _ _) as [e|proc].
  - destruct e; reflexivity.
  - rewrite bind_run, for_each_packer_line. cbn [fst snd].
    destruct proc; unfold after; cbn; now rewrite app_nil_r.
Qed.

Example packer_demo :
  packer demo_env "windows-2019-v3-0-0" [] =
  (Returned tt,
   [LogInfo ("Create golden image for windows-2019-v3-0-0. This can take up to 30 minutes." ++ nl);
    Popen ["packer"; "build"; "-force"; "-only=amazon-ebs.windows";
           "packer/windows_server/windows_2019.pkr.hcl"]
          (popen demo_env [] []);
    PrintBytes "==> amazon-ebs: Creating AMI";
    PrintBytes "";
    PrintBytes "Build finished."]).
Proof. reflexivity. Qed.

Lemma lstrip_chars_head (l : list ascii) :
  match lstrip_chars l with
  | c :: _ => is_space c = false
  | [] => True
  end.
Proof.
  induction l as [|c l IH]; cbn; [exact I|].
  destruct (is_space c) eqn:Hc; [exact IH | exact Hc].
Qed.

Lemma lstrip_chars_last (l : list ascii) (c : ascii) :
  is_space c = false ->
  exists l', lstrip_chars (l ++ [c]) = (l' ++ [c])%list.
Proof.
  intros Hc. induction l as [|x l IH]; cbn.
  - rewrite Hc. now exists [].
  - destruct (is_space x); [exact IH | now exists (x :: l)].
Qed.

Lemma strip_stripped (b : string) : stripped (strip b).
Proof.
  unfold stripped, strip. rewrite list_ascii_of_string_of_list_ascii.
  rewrite rev_involutive. split; [|apply lstrip_chars_head].
  pose proof (lstrip_chars_head (list_ascii_of_string b)) as Hhead.
  destruct (lstrip_chars (list_ascii_of_string b)) as [|c m]; [exact I|].
  cbn [rev]. destruct (lstrip_chars_last (rev m) c Hhead) as [l' ->].
  rewrite rev_app_distr. exact Hhead.
Qed.

Lemma is_space_whitespace (c : ascii) : is_space c = true <-> whitespace c.
Proof.
  unfold is_space, whitespace. cbn [In].
  destruct (Nat.leb_spec 9 (nat_of_ascii c));
    destruct (Nat.leb_spec (nat_of_ascii c) 13);
    destruct (Nat.eqb_spec (nat_of_ascii c) 32); cbn; split;
    try discriminate; try reflexivity; intros; lia.
Qed.

Lemma not_space_whitespace (c : ascii) : is_space c = false -> ~ whitespace c.
Proof.
  intros Hc Hw. apply is_space_whitespace in Hw. congruence.
Qed.

Lemma lstrip_chars_split (l : list ascii) :
  exists before,
    l = (before ++ lstrip_chars l)%list /\ Forall whitespace before.
Proof.
  induction l as [|c l [before [Hl Hbefore]]]; cbn.
  - exists []. now split.
  - destruct (is_space c) eqn:Hc.
    + exists (c :: before). split; [cbn; congruence|].
      constructor; [now apply is_space_whitespace | exact Hbefore].
    + exists []. now split.
Qed.

(** [strip] removes the whitespace at the two ends and nothing else. *)
Lemma strip_trimmed (line : string) : trimmed line (strip line).
Proof.
  destruct (strip_stripped line) as [Hfirst Hlast].
  unfold trimmed, stripped, strip in *.
  rewrite list_ascii_of_string_of_list_ascii in *.
  set (l := list_ascii_of_string line) in *.
  set (m := lstrip_chars l) in *.
  set (n := lstrip_chars (rev m)) in *.
  destruct (lstrip_chars_split l) as [before [Hline Hbefore]].
  destruct (lstrip_chars_split (rev m)) as [behind [Hrest Hbehind]].
  fold m in Hline. fold n in Hrest.
  clearbody n. clearbody m. clearbody l.
  assert (Hm : m = (rev n ++ rev behind)%list)
    by now rewrite <- rev_app_distr, <- Hrest, rev_involutive.
  exists before, (rev behind).
  split; [now rewrite Hline, Hm|].
  split; [exact Hbefore|].
  split; [apply Forall_rev; exact Hbehind|].
  split.
  - destruct (rev n); [exact I | now apply not_space_whitespace].
  - destruct (rev (rev n)); [exact I | now apply not_space_whitespace].
Qed.

Lemma streamed_strip (lines : list string) :
  streamed lines (map strip (filter truthy lines)).
Proof.
  induction lines as [|line lines IH]; [constructor|].
  cbn [filter]. unfold truthy at 1.
  destruct (String.eqb_spec line "") as [->|Hline]; cbn [negb map].
  - now constructor.
  - constructor; [exact Hline | apply strip_trimmed | exact IH].
Qed.

(** C4: the builder target and the template depend on the prefix of
    the image name only, one pair per family.  For a name of one of the
    five families the helper starts the builder with that pair; if the
    builder cannot be started the exception leaves the helper with
    nothing printed; if it is started, the helper prints its output
    line by line, in order: each non-empty line read while the builder
    runs, without the whitespace at its ends, and nothing for an empty
    read; it returns when the builder exits and does not return when
    the builder never exits.  For any other name it logs
    ["Image not supported."] and leaves through [sys.exit(1)] without
    starting the builder. *)
Theorem packer_by_family (env : environment) (image_name : string)
        (h : history) :
  (forall rest,
      packer_select ("splunk" ++ rest) =
        ("amazon-ebs.splunk-ubuntu-18-04",
         "packer/splunk_server/splunk-ubuntu.pkr.hcl")
      /\ packer_select ("linux" ++ rest) =
        ("amazon-ebs.ubuntu-18-04",
         "packer/linux_server/linux-ubuntu-18-04.pkr.hcl")
      /\ packer_select ("nginx" ++ rest) =
        ("amazon-ebs.nginx-web-proxy",
         "packer/nginx_server/nginx_web_proxy.pkr.hcl")
      /\ packer_select ("windows-2016" ++ rest) =
        ("amazon-ebs.windows", "packer/windows_server/windows_2016.pkr.hcl")
      /\ packer_select ("windows-2019" ++ rest) =
        ("amazon-ebs.windows", "packer/windows_server/windows_2019.pkr.hcl"))
  /\
  let announce :=
    LogInfo ("Create golden image for " ++ image_name
             ++ ". This can take up to 30 minutes." ++ nl) in
  let argv := ["packer"; "build"; "-force";
               "-only=" ++ fst (packer_select image_name);
               snd (packer_select image_name)] in
  let answer := popen env (h ++ [announce])%list argv in
  if supported image_name then
    match answer with
    | inl e =>
        packer env image_name h =
        (Raised (handled e), [announce; Popen argv answer])
    | inr (Exits running_lines _ _) =>
        exists printed,
          streamed running_lines printed
          /\ packer env image_name h =
             (Returned tt,
              announce :: Popen argv answer :: map PrintBytes printed)
    | inr (NeverExits running_lines) =>
        exists printed,
          streamed running_lines printed
          /\ packer env image_name h =
             (NeverReturns,
              announce :: Popen argv answer :: map PrintBytes printed)
    end
  else
    packer env image_name h =
    (SysExit 1, [announce; LogError "Image not supported."]).
Proof.
  split.
  - intros rest. unfold packer_select, startswith. cbn.
    rewrite prefix_nil. repeat split; reflexivity.
  - pose proof (packer_run env image_name h) as Hrun. cbv zeta in *.
    destruct (supported image_name); [|exact Hrun].
    destruct (popen env _ _) as [e|[lines final code|lines]];
      [exact Hrun | |];
      (exists (map strip (filter truthy lines));
       split; [apply streamed_strip | exact Hrun]).
Qed.

(** ** Properties of all the events of a run *)

Section Events.

Variable P : event -> Prop.

Lemma events_ret {A} (a : A) (h : history) : Forall P (snd (ret a h)).
Proof. constructor. Qed.

Lemma events_sys_exit {A} (c : Z) (h : history) :
  Forall P (snd (@sys_exit A c h)).
Proof. constructor. Qed.

Lemma events_raise {A} (x : exn) (h : history) :
  Forall P (snd (@raise A x h)).
Proof. constructor. Qed.

Lemma events_emit (e : event) (h : history) :
  P e -> Forall P (snd (emit e h)).
Proof. intros He. repeat constructor. exact He. Qed.

Lemma events_never_returns {A} (h : history) :
  Forall P (snd (@never_returns A h)).
Proof. constructor. Qed.

Lemma events_attempt (e : event) (failure : history -> option exn)
      (h : history) :
  P e -> Forall P (snd (attempt e failure h)).
Proof. intros He. repeat constructor. exact He. Qed.

Lemma events_ask {A} (f : history -> A) (e : A -> event) (h : history) :
  (forall a, P (e a)) -> Forall P (snd (ask f e h)).
Proof. intros He. repeat constructor. apply He. Qed.

Lemma events_bind {A B} (m : M A) (k : A -> M B) (h : history) :
  Forall P (snd (m h)) ->
  (forall a h', Forall P (snd (k a h'))) ->
  Forall P (snd ((x <- m ;; k x) h)).
Proof.
  intros Hm Hk. rewrite bind_run.
  destruct (fst (m h)) as [a|c|x|]; cbn; try exact Hm.
  apply Forall_app. split; [exact Hm | apply Hk].
Qed.

Lemma events_for_each {A} (xs : list A) (body : A -> M unit) (h : history) :
  (forall x h', Forall P (snd (body x h'))) ->
  Forall P (snd (for_each xs body h)).
Proof.
  intros Hbody. revert h.
  induction xs as [|x xs IH]; intros h; cbn [for_each].
  - apply events_ret.
  - apply events_bind; [apply Hbody | intros _ h'; apply IH].
Qed.

End Events.



(** ** Dump *)

Lemma string_app_assoc (a b c : string) : (a ++ b) ++ c = a ++ b ++ c.
Proof. induction a as [|x a IH]; cbn; [reflexivity | now rewrite IH]. Qed.

Lemma os_path_join_relative (a b : string) :
  exists dir, os_path_join a ("../" ++ b) = dir ++ "../" ++ b.
Proof.
  unfold os_path_join, startswith. cbn.
  destruct (String.eqb a "" || endswith_sep a)%bool.
  - now exists a.
  - exists (a ++ "/"). now rewrite string_app_assoc.
Qed.

Example dump_demo :
  dump demo_env demo_self "dump.log" "index=win" "2h" "now" [] =
  (Returned tt,
   [LogInfo "Dump log data";
    LogInfo "Dumping Splunk Search: search index=win earliest=-2h latest=now | sort 0 _time";
    OpenFile "/opt/attack_range/modules/../dump.log" "wb";
    GetSingleInstancePublicIp "ar-splunk-attack-range-key-pair-default"
      "attack-range-key-pair" "default" "eu-central-1" "18.0.0.1";
    ExportSearch "18.0.0.1"
      "search index=win earliest=-2h latest=now | sort 0 _time"
      "Pl3ase-k1Ll-me:p" "/opt/attack_range/modules/../dump.log";
    CloseFile "/opt/attack_range/modules/../dump.log";
    LogInfo "[Completed]"]).
Proof. reflexivity. Qed.

Lemma list_ascii_of_string_app (a b : string) :
  list_ascii_of_string (a ++ b) =
  (list_ascii_of_string a ++ list_ascii_of_string b)%list.
Proof. induction a as [|c a IH]; cbn; [reflexivity | now rewrite IH]. Qed.

Lemma endswith_sep_app (a : string) : endswith_sep (a ++ "/") = true.
Proof.
  unfold endswith_sep. rewrite list_ascii_of_string_app, rev_app_distr.
  reflexivity.
Qed.

(** The path of the dump named by the empty string is a directory. *)
Lemma dump_path_of_empty_name (dir : string) :
  endswith_sep (os_path_join dir ("../" ++ "")) = true.
Proof.
  unfold os_path_join, startswith. cbn.
  destruct (String.eqb dir "" || endswith_sep dir)%bool.
  - change "../" with (".." ++ "/"). rewrite <- string_app_assoc.
    apply endswith_sep_app.
  - change "/../" with ("/.." ++ "/"). rewrite <- string_app_assoc.
    apply endswith_sep_app.
Qed.

(** C8, as stated, fails: for the empty [dump_name] the path is the
    parent directory of the module directory, the open raises, and
    nothing is looked up, exported or closed. *)
Lemma dump_exports_search_counterexample :
  dump demo_env demo_self "" "index=win" "2h" "now" [] =
  (Raised IsADirectoryError,
   [LogInfo "Dump log data";
    LogInfo "Dumping Splunk Search: search index=win earliest=-2h latest=now | sort 0 _time";
    OpenFile "/opt/attack_range/modules/../" "wb"])
  /\ ~ In (CloseFile "/opt/attack_range/modules/../")
          (snd (dump demo_env demo_self "" "index=win" "2h" "now" [])).
Proof.
  split; [reflexivity|]. cbn. intros [H|[H|[H|[]]]]; discriminate.
Qed.

(** C8, amended: for all arguments, [dump] first opens the file
    [dump_name] (relative to the parent of the module directory) for
    writing.  If the open fails, as it always does for the empty
    [dump_name], [dump] raises before any lookup, export or close.
    Otherwise it exports into the file the search ["search " + search
    + " earliest=-" + earliest + " latest=" + latest
    + " | sort 0 _time"] run on the splunk server of the range; if the
    export fails the exception leaves [dump] with the file unclosed,
    and if it returns the file is closed after it. *)
Theorem dump_exports_search (env : environment) (self : AwsController)
        (dump_name search earliest latest : string) (h : history) :
  let cfg := self_config self in
  let dump_search := "search " ++ search ++ " earliest=-" ++ earliest
                     ++ " latest=" ++ latest ++ " | sort 0 _time" in
  let out := os_path_join (module_dir env) ("../" ++ dump_name) in
  let splunk_instance := "ar-splunk-" ++ general_key_name cfg ++ "-"
                         ++ general_attack_range_name cfg in
  let logged := [LogInfo "Dump log data";
                 LogInfo ("Dumping Splunk Search: " ++ dump_search)] in
  let opened := (logged ++ [OpenFile out "wb"])%list in
  let cannot_open :=
    if endswith_sep out then Some IsADirectoryError
    else open_file env (h ++ logged)%list out "wb" in
  let host := get_single_instance_public_ip env (h ++ opened)%list
                splunk_instance (general_key_name cfg)
                (general_attack_range_name cfg) (aws_region cfg) in
  let looked_up :=
    (opened ++
     [GetSingleInstancePublicIp splunk_instance (general_key_name cfg)
        (general_attack_range_name cfg) (aws_region cfg) host])%list in
  let export :=
    ExportSearch host dump_search (general_attack_range_password cfg) out in
  dump env self dump_name search earliest latest h =
    match cannot_open with
    | Some x => (Raised x, opened)
    | None =>
        match export_search env (h ++ looked_up)%list host dump_search
                (general_attack_range_password cfg) out with
        | Some x => (Raised x, (looked_up ++ [export])%list)
        | None =>
            (Returned tt,
             (looked_up ++ [export; CloseFile out; LogInfo "[Completed]"])%list)
        end
    end
  /\ (exists dir, out = dir ++ "../" ++ dump_name)
  /\ (dump_name = "" -> cannot_open = Some IsADirectoryError).
Proof.
  cbv zeta. split; [|split; [apply os_path_join_relative|]].
  - unfold dump, open_wb, logger_info.
    rewrite !bind_emit, bind_attempt.
    rewrite <- ?app_assoc. cbn [app].
    destruct (if endswith_sep _ then _ else _) as [x|]; [reflexivity|].
    rewrite bind_ask, bind_attempt.
    rewrite <- ?app_assoc. cbn [app].
    destruct (export_search env _ _ _ _ _) as [x|]; [reflexivity|].
    rewrite bind_emit. reflexivity.
  - intros ->. now rewrite dump_path_of_empty_name.
Qed.

(** ** Build *)

Section BuildEvents.

Variable P : event -> bool.
Hypothesis P_info : forall msg, before_apply (LogInfo msg) = true ->
                                P (LogInfo msg) = true.
Hypothesis P_error : forall msg, P (LogError msg) = true.
Hypothesis P_print : forall s, P (Print s) = true.
Hypothesis P_bytes : forall b, P (PrintBytes b) = true.
Hypothesis P_table : forall rows headers, P (PrintTable rows headers) = true.
Hypothesis P_popen : forall argv p, P (Popen argv p) = true.
Hypothesis P_instances :
  forall k n r a, P (GetAllInstances k n r a) = true.
Hypothesis P_read : forall path a, P (ReadFile path a) = true.

Let holds (e : event) : Prop := P e = true.

Ltac leaf :=
  unfold holds;
  first [ apply P_error | apply P_print | apply P_bytes | apply P_table
        | apply P_popen | apply P_instances | apply P_read
        | apply P_info; reflexivity ].

Ltac walk :=
  unfold logger_info, logger_error, print; cbv zeta;
  repeat first
    [ apply events_ret | apply events_sys_exit | apply events_raise
    | apply events_never_returns
    | apply events_emit; leaf
    | apply events_ask; intros; leaf
    | apply events_bind; [|intros ? ?]
    | apply events_for_each; intros ? ?
    | match goal with
      | |- Forall _ (snd ((if ?c then _ else _) _)) => destruct c
      | |- Forall _ (snd ((match ?c with _ => _ end) _)) => destruct c
      end ].

Lemma packer_events (env : environment) (img : string) (h : history) :
  Forall holds (snd (packer env img h)).
Proof. unfold packer, packer_line. walk. Qed.

Lemma show_loop_events (self : AwsController) (instances : list instance)
      (v : show_vars) (h : history) :
  Forall holds (snd (show_loop self instances v h)).
Proof.
  revert v h. induction instances as [|i rest IH]; intros v h; cbn [show_loop].
  - walk.
  - apply events_bind; [|intros v' h'; apply IH].
    unfold show_instance, Tags_0_Value, NetworkInterfaces_0_PublicIp. walk.
Qed.

Lemma show_events (env : environment) (self : AwsController) (h : history) :
  Forall holds (snd (show env self h)).
Proof.
  unfold show, get_prelude_token.
  unfold logger_info, logger_error, print.
  apply events_bind; [apply events_emit; leaf | intros _ h1].
  apply events_bind; [apply events_ask; intros; leaf | intros instances h2].
  apply events_bind; [apply show_loop_events | intros v h3].
  walk.
Qed.

End BuildEvents.

Section Build.

Variable env : environment.
Variable self : AwsController.

Let cfg := self_config self.
Let r := aws_region cfg.

(** The three ways the loop body of [build] can go for one image. *)
Lemma build_image_run (img : string) (h : history) :
  build_image env self img h =
  if ami_available env h img r then
    (Returned tt,
     [AmiAvailable img r true;
      LogInfo ("Image " ++ img ++ " is available in region " ++ r)])
  else
    let missing :=
      [AmiAvailable img r false;
       LogInfo ("Image " ++ img ++ " is not available in region " ++ r);
       LogInfo ("Checking if image " ++ img
                ++ " is available in other regions.")] in
    match ami_available_other_region env (h ++ missing)%list img with
    | Some found =>
        (Returned tt,
         (missing ++
          [AmiAvailableOtherRegion img (Some found);
           LogInfo ("Found image " ++ img ++ " in region " ++ region found
                    ++ ". Copy it to region " ++ r);
           CopyImage img (image_id found) (region found) r])%list)
    | None =>
        let nowhere :=
          (missing ++
           [AmiAvailableOtherRegion img None;
            LogInfo ("Image " ++ img ++ " need to be built with packer.")])%list
        in
        after nowhere (packer env img (h ++ nowhere)%list)
    end.
Proof.
  unfold build_image. fold cfg. fold r. rewrite bind_ask.
  destruct (ami_available env h img r); cbn [negb].
  - reflexivity.
  - run.
    destruct (ami_available_other_region env _ img) as [found|]; run.
    + reflexivity.
    + reflexivity.
Qed.

Lemma build_image_before_apply (img : string) (h : history) :
  Forall (fun e => before_apply e = true) (snd (build_image env self img h)).
Proof.
  rewrite build_image_run.
  destruct (ami_available env h img r); [repeat constructor|].
  cbv zeta. destruct (ami_available_other_region env _ img) as [found|].
  - repeat constructor.
  - cbn [after snd]. apply Forall_app. split; [repeat constructor|].
    apply (packer_events before_apply); intros; try reflexivity. assumption.
Qed.



(** The loop up to an image, the step for this image, the rest. *)
Lemma for_each_split {A} (done : list A) (x : A) (todo : list A)
      (body : A -> M unit) (h : history) :
  fst (for_each done body h) = Returned tt ->
  exists rest,
    snd (for_each (done ++ x :: todo) body h) =
    (snd (for_each done body h)
     ++ snd (body x (h ++ snd (for_each done body h))) ++ rest)%list.
Proof.
  revert h. induction done as [|d done IH]; intros h Hdone.
  - cbn [for_each app ret snd]. rewrite app_nil_r. rewrite bind_run.
    destruct (fst (body x h)) as [a|c|e|]; cbn [after snd].
    + eexists; reflexivity.
    + exists []. now rewrite app_nil_r.
    + exists []. now rewrite app_nil_r.
    + exists []. now rewrite app_nil_r.
  - cbn [for_each app] in *. rewrite !bind_run in *.
    destruct (fst (body d h)) as [a|c|e|]; cbn [after fst snd] in *;
      try discriminate.
    destruct (IH _ Hdone) as [rest Hrest]. exists rest.
    rewrite Hrest, <- !app_assoc. reflexivity.
Qed.

(** The whole of [build]: two log lines, the loop over the images and,
    if the loop runs to its end, the apply, the success message when
    the return code is zero, and [show]. *)
Lemma build_run (h : history) :
  let logs := [LogInfo ("[action] > build" ++ nl);
               LogInfo ("Check if images are available in region " ++ r)] in
  let loop := for_each (build_images self) (build_image env self)
                       (h ++ logs)%list in
  let h1 := (h ++ logs ++ snd loop)%list in
  let return_code := terraform_apply env h1 in
  let applied :=
    TerraformApply (self_terraform self) return_code
    :: (if (return_code =? 0)%Z
        then [LogInfo "attack_range has been built using terraform successfully"]
        else []) in
  build env self h =
  match fst loop with
  | Returned _ =>
      after (logs ++ snd loop ++ applied)%list
            (show env self (h1 ++ applied)%list)
  | SysExit c => (SysExit c, (logs ++ snd loop)%list)
  | Raised x => (Raised x, (logs ++ snd loop)%list)
  | NeverReturns => (NeverReturns, (logs ++ snd loop)%list)
  end.
Proof.
  cbv zeta. unfold build. fold cfg. fold r. run. rewrite bind_run.
  destruct (for_each (build_images self) (build_image env self) _)
    as [[[]|c|x|] loop_events]; cbn [fst snd after]; try reflexivity.
  run. destruct (_ =? 0)%Z; run; unfold after; cbn [fst snd app];
    rewrite <- ?app_assoc; reflexivity.
Qed.

End Build.



Example build_images_demo :
  build_images demo_self =
  ["splunk-v3-0-0"; "windows-2016-v3-0-0"; "linux-v3-0-0";
   "nginx-web-proxy-v3-0-0"].
Proof. reflexivity. Qed.

(** The demo range: the splunk image is there, the windows image is
    built, the linux image is copied and the nginx image is built; the
    apply succeeds and [show] lists the two instances. *)
Example build_demo :
  let built :=
    [PrintBytes "==> amazon-ebs: Creating AMI"; PrintBytes "";
     PrintBytes "Build finished."] in
  exists p1 p2,
  build demo_env demo_self [] =
  (Returned tt,
   [LogInfo ("[action] > build" ++ nl);
    LogInfo "Check if images are available in region eu-central-1";
    AmiAvailable "splunk-v3-0-0" "eu-central-1" true;
    LogInfo "Image splunk-v3-0-0 is available in region eu-central-1";
    AmiAvailable "windows-2016-v3-0-0" "eu-central-1" false;
    LogInfo "Image windows-2016-v3-0-0 is not available in region eu-central-1";
    LogInfo "Checking if image windows-2016-v3-0-0 is available in other regions.";
    AmiAvailableOtherRegion "windows-2016-v3-0-0" None;
    LogInfo "Image windows-2016-v3-0-0 need to be built with packer.";
    LogInfo ("Create golden image for windows-2016-v3-0-0. This can take up to 30 minutes." ++ nl);
    Popen ["packer"; "build"; "-force"; "-only=amazon-ebs.windows";
           "packer/windows_server/windows_2016.pkr.hcl"] p1]
   ++ built ++
   [AmiAvailable "linux-v3-0-0" "eu-central-1" false;
    LogInfo "Image linux-v3-0-0 is not available in region eu-central-1";
    LogInfo "Checking if image linux-v3-0-0 is available in other regions.";
    AmiAvailableOtherRegion "linux-v3-0-0"
      (Some {| region := "us-west-2"; image_id := "ami-0123" |});
    LogInfo "Found image linux-v3-0-0 in region us-west-2. Copy it to region eu-central-1";
    CopyImage "linux-v3-0-0" "ami-0123" "us-west-2" "eu-central-1";
    AmiAvailable "nginx-web-proxy-v3-0-0" "eu-central-1" false;
    LogInfo "Image nginx-web-proxy-v3-0-0 is not available in region eu-central-1";
    LogInfo "Checking if image nginx-web-proxy-v3-0-0 is available in other regions.";
    AmiAvailableOtherRegion "nginx-web-proxy-v3-0-0" None;
    LogInfo "Image nginx-web-proxy-v3-0-0 need to be built with packer.";
    LogInfo ("Create golden image for nginx-web-proxy-v3-0-0. This can take up to 30 minutes." ++ nl);
    Popen ["packer"; "build"; "-force"; "-only=amazon-ebs.nginx-web-proxy";
           "packer/nginx_server/nginx_web_proxy.pkr.hcl"] p2]
   ++ built ++
   [TerraformApply (self_terraform demo_self) 0;
    LogInfo "attack_range has been built using terraform successfully";
    LogInfo ("[action] > show" ++ nl);
    GetAllInstances "attack-range-key-pair" "default" "eu-central-1"
      [demo_splunk; demo_win];
    Print "";
    Print ("Status Virtual Machines" ++ nl);
    PrintTable
      [["ar-splunk-attack-range-key-pair-default"; "running"; "18.0.0.1"];
       ["ar-win-attack-range-key-pair-default-0"; "stopped"]]
      ["Name"; "Status"; "IP Address"];
    Print (nl ++ "Access Splunk via:" ++ nl ++ tab
           ++ "Web > http://18.0.0.1:8000" ++ nl ++ tab
           ++ "SSH > ssh -i~/.ssh/id_rsa ubuntu@18.0.0.1" ++ nl ++ tab
           ++ "username: admin " ++ nl ++ tab
           ++ "password: Pl3ase-k1Ll-me:p");
    Print ""])%list.
Proof. do 2 eexists. vm_compute. reflexivity. Qed.

(** C1: [build] takes every image of its list through the same
    decision.  At whatever position [img] stands in the list, once the
    images before it are done [build] goes on with the step for [img],
    and this step is: ask whether the image is available in the
    configured region; if so, neither copy nor build; if not, ask for
    it in the other regions; if found there, copy it into the
    configured region and do not start the builder; otherwise hand the
    image to the packer helper. *)
Theorem build_decision_tree (env : environment) (self : AwsController)
        (h : history) (done : list string) (img : string)
        (todo : list string) :
  let r := aws_region (self_config self) in
  let logs := [LogInfo ("[action] > build" ++ nl);
               LogInfo ("Check if images are available in region " ++ r)] in
  let before := for_each done (build_image env self) (h ++ logs)%list in
  let h1 := (h ++ logs ++ snd before)%list in
  let step := build_image env self img h1 in
  build_images self = (done ++ img :: todo)%list ->
  fst before = Returned tt ->
  (exists rest,
      snd (build env self h) = (logs ++ snd before ++ snd step ++ rest)%list)
  /\ step =
     if ami_available env h1 img r then
       (Returned tt,
        [AmiAvailable img r true;
         LogInfo ("Image " ++ img ++ " is available in region " ++ r)])
     else
       let missing :=
         [AmiAvailable img r false;
          LogInfo ("Image " ++ img ++ " is not available in region " ++ r);
          LogInfo ("Checking if image " ++ img
                   ++ " is available in other regions.")] in
       match ami_available_other_region env (h1 ++ missing)%list img with
       | Some found =>
           (Returned tt,
            (missing ++
             [AmiAvailableOtherRegion img (Some found);
              LogInfo ("Found image " ++ img ++ " in region " ++ region found
                       ++ ". Copy it to region " ++ r);
              CopyImage img (image_id found) (region found) r])%list)
       | None =>
           let nowhere :=
             (missing ++
              [AmiAvailableOtherRegion img None;
               LogInfo ("Image " ++ img ++ " need to be built with packer.")])%list
           in
           after nowhere (packer env img (h1 ++ nowhere)%list)
       end.
Proof.
  intros r logs before h1 step Himages Hbefore.
  split; [|apply build_image_run].
  pose proof (build_run env self h) as Hbuild. cbv zeta in Hbuild.
  rewrite Himages in Hbuild.
  destruct (for_each_split done img todo (build_image env self)
              (h ++ logs)%list Hbefore) as [rest Hrest].
  fold before in Hrest.
  assert (Hh1 : ((h ++ logs) ++ snd before = h1)%list)
    by (subst h1; now rewrite <- app_assoc).
  rewrite Hh1 in Hrest. fold step in Hrest.
  fold r in Hbuild. fold logs in Hbuild. rewrite Hbuild.
  destruct (fst (for_each (done ++ img :: todo) (build_image env self)
                   (h ++ logs)%list)) as [[]|c|x|];
    cbn [after snd]; rewrite Hrest.
  - eexists. rewrite <- ?app_assoc. reflexivity.
  - exists rest. now rewrite <- ?app_assoc.
  - exists rest. now rewrite <- ?app_assoc.
  - exists rest. now rewrite <- ?app_assoc.
Qed.

Lemma build_decision_tree_witness :
  let logs := [LogInfo ("[action] > build" ++ nl);
               LogInfo "Check if images are available in region eu-central-1"] in
  let before := for_each ["splunk-v3-0-0"; "windows-2016-v3-0-0"]
                         (build_image demo_env demo_self) logs in
  let step := build_image demo_env demo_self "linux-v3-0-0"
                          (logs ++ snd before)%list in
  (exists rest,
      snd (build demo_env demo_self []) =
      (logs ++ snd before ++ snd step ++ rest)%list)
  /\ step =
     (Returned tt,
      [AmiAvailable "linux-v3-0-0" "eu-central-1" false;
       LogInfo "Image linux-v3-0-0 is not available in region eu-central-1";
       LogInfo "Checking if image linux-v3-0-0 is available in other regions.";
       AmiAvailableOtherRegion "linux-v3-0-0"
         (Some {| region := "us-west-2"; image_id := "ami-0123" |});
       LogInfo "Found image linux-v3-0-0 in region us-west-2. Copy it to region eu-central-1";
       CopyImage "linux-v3-0-0" "ami-0123" "us-west-2" "eu-central-1"]).
Proof.
  exact (build_decision_tree demo_env demo_self []
           ["splunk-v3-0-0"; "windows-2016-v3-0-0"] "linux-v3-0-0"
           ["nginx-web-proxy-v3-0-0"] eq_refl eq_refl).
Defined.


(** C10: [destroy] logs its success message after the terraform
    destroy whatever return code the destroy gave, whereas the success
    message of [build] is in its log exactly when the apply returned
    zero. *)
Theorem destroy_reports_success_always (env : environment)
        (self : AwsController) (h : history) :
  let started := LogInfo ("[action] > destroy" ++ nl) in
  let built :=
    LogInfo "attack_range has been built using terraform successfully" in
  destroy env self h =
    (Returned tt,
     [started;
      TerraformDestroy (self_terraform self)
        (terraform_destroy env (h ++ [started])%list);
      LogInfo "attack_range has been destroy using terraform successfully"])
  /\ (In built (snd (build env self h)) <->
      In (TerraformApply (self_terraform self) 0) (snd (build env self h))).
Proof.
  intros started built. split; [reflexivity|].
  pose proof (build_run env self h) as Hbuild. cbv zeta in Hbuild.
  set (logs := [LogInfo ("[action] > build" ++ nl); _]) in Hbuild.
  set (loop := for_each _ _ _) in Hbuild.
  set (return_code := terraform_apply env _) in Hbuild.
  assert (Hloop : Forall (fun e => before_apply e = true) (logs ++ snd loop)%list).
  { apply Forall_app. split; [repeat constructor|].
    apply events_for_each. intros img h'. apply build_image_before_apply. }
  assert (Hno : forall es e, Forall (fun e => before_apply e = true) es ->
                             before_apply e = false -> ~ In e es).
  { intros es e Hes He Hin. rewrite Forall_forall in Hes.
    apply Hes in Hin. congruence. }
  rewrite Hbuild.
  destruct (fst loop) as [[]|c|x|]; cbn [after snd].
  2-4: split; intros Hin; exfalso; revert Hin; now apply Hno.
  set (shown := snd (show env self _)).
  assert (Hshow : Forall (fun e => before_apply e = true) shown).
  { apply (show_events before_apply); intros; try reflexivity. assumption. }
  rewrite !in_app_iff.
  clear Hbuild. clearbody shown. clearbody return_code. subst built.
  apply Forall_app in Hloop. destruct Hloop as [Hlogs Hloop].
  destruct (Z.eqb_spec return_code 0) as [Hrc|Hrc].
  - subst return_code. split; intros _; left; right; right; cbn; tauto.
  - split; intros [[Hin|[Hin|Hin]]|Hin];
      try (exfalso; revert Hin; now apply Hno);
      cbn in Hin; destruct Hin as [Hin|[]]; congruence.
Qed.

(** ** Show *)

Section Inventory.

Variable self : AwsController.

Ltac chain :=
  repeat match goal with
    | |- context [if startswith ?n ?p then _ else _] =>
        destruct (startswith n p)
    | |- context [if String.eqb ?a ?b then _ else _] =>
        destruct (String.eqb a b)
    end.

(** One instance: its row, its message, the running flag and the
    address kept for the prelude message. *)
Lemma show_instance_splunk_ip (v : show_vars) (i : instance) (h : history) :
  has_shape i = true ->
  show_instance self v i h =
  (Returned {| response := (response v ++ [row i])%list;
               messages := (messages v ++ connection_info self i)%list;
               instances_running := (instances_running v || is_running i)%bool;
               splunk_ip := last_splunk_ip [i] (splunk_ip v) |}, []).
Proof.
  unfold last_splunk_ip. cbn [fold_left].
  unfold has_shape, connection_info, row, show_instance, ssh_line,
    credentials, name_of, public_ip_of, is_running, Tags_0_Value,
    NetworkInterfaces_0_PublicIp.
  destruct (Tags i) as [|t tags]; [discriminate|].
  destruct (String.eqb (State_Name i) "running").
  - destruct (NetworkInterfaces i) as [|[[a|]] nis]; try discriminate.
    intros _. cbn [Association]. rewrite !bind_ret. cbv zeta.
    cbn [response messages instances_running splunk_ip andb negb].
    rewrite orb_true_r.
    chain; cbn [ret]; rewrite ?app_nil_r, ?string_app_assoc; reflexivity.
  - intros _. rewrite !bind_ret. cbn. rewrite orb_false_r, app_nil_r.
    reflexivity.
Qed.

Lemma show_instance_run (v : show_vars) (i : instance) (h : history) :
  has_shape i = true ->
  exists sip,
    show_instance self v i h =
    (Returned {| response := (response v ++ [row i])%list;
                 messages := (messages v ++ connection_info self i)%list;
                 instances_running := (instances_running v || is_running i)%bool;
                 splunk_ip := sip |}, []).
Proof.
  intros Hshape. eexists. now apply show_instance_splunk_ip.
Qed.

Lemma connection_info_length (i : instance) :
  List.length (connection_info self i) =
  if (is_running i && recognized (name_of i))%bool then 1%nat else 0%nat.
Proof.
  unfold connection_info, recognized, existsb.
  destruct (is_running i); [|reflexivity]. cbn [negb andb].
  destruct (startswith (name_of i) "ar-splunk"); [reflexivity|].
  destruct (startswith (name_of i) "ar-phantom"); [reflexivity|].
  destruct (startswith (name_of i) "ar-win"); [reflexivity|].
  destruct (startswith (name_of i) "ar-linux"); [reflexivity|].
  destruct (startswith (name_of i) "ar-kali"); [reflexivity|].
  destruct (startswith (name_of i) "ar-nginx"); reflexivity.
Qed.

Lemma show_loop_splunk_ip (instances : list instance) (v : show_vars)
      (h : history) :
  forallb has_shape instances = true ->
  show_loop self instances v h =
  (Returned
     {| response := (response v ++ map row instances)%list;
        messages :=
          (messages v ++ flat_map (connection_info self) instances)%list;
        instances_running :=
          (instances_running v || existsb is_running instances)%bool;
        splunk_ip := last_splunk_ip instances (splunk_ip v) |}, []).
Proof.
  revert v h. induction instances as [|i rest IH]; intros v h Hshape.
  - cbn. rewrite !app_nil_r, orb_false_r. now destruct v.
  - cbn [forallb] in Hshape. apply andb_prop in Hshape.
    destruct Hshape as [Hi Hrest].
    cbn [show_loop]. rewrite bind_run, (show_instance_splunk_ip v i h Hi).
    cbn [fst snd]. rewrite (IH _ _ Hrest). cbn.
    now rewrite <- !app_assoc, orb_assoc.
Qed.

(** The loop: a row per instance and the messages of each, in order. *)
Lemma show_loop_run (instances : list instance) (v : show_vars) (h : history) :
  forallb has_shape instances = true ->
  exists sip,
    show_loop self instances v h =
    (Returned
       {| response := (response v ++ map row instances)%list;
          messages :=
            (messages v ++ flat_map (connection_info self) instances)%list;
          instances_running :=
            (instances_running v || existsb is_running instances)%bool;
          splunk_ip := sip |}, []).
Proof.
  intros Hshape. eexists. now apply show_loop_splunk_ip.
Qed.

Lemma for_each_print (msgs : list string) (h : history) :
  for_each msgs print h = (Returned tt, map Print msgs).
Proof.
  revert h. induction msgs as [|m msgs IH]; intros h; [reflexivity|].
  cbn [for_each]. unfold print at 1. rewrite bind_emit, IH. reflexivity.
Qed.

End Inventory.

Example show_empty_demo :
  show {| module_dir := module_dir demo_env;
          check_region := check_region demo_env;
          ami_available := ami_available demo_env;
          ami_available_other_region := ami_available_other_region demo_env;
          terraform_apply := terraform_apply demo_env;
          terraform_destroy := terraform_destroy demo_env;
          popen := popen demo_env;
          open_file := open_file demo_env;
          export_search := export_search demo_env;
          get_all_instances := fun _ _ _ _ => [];
          get_single_instance_public_ip :=
            get_single_instance_public_ip demo_env;
          read_file := read_file demo_env |} demo_self [] =
  (Returned tt,
   [LogInfo ("[action] > show" ++ nl);
    GetAllInstances "attack-range-key-pair" "default" "eu-central-1" [];
    Print "";
    Print ("Status Virtual Machines" ++ nl);
    Print "ERROR: Can't find configured Attack Range Instances"]).
Proof. reflexivity. Qed.

(** A running instance without a public address makes [show] fail
    before it prints anything. *)
Example show_without_address :
  show {| module_dir := module_dir demo_env;
          check_region := check_region demo_env;
          ami_available := ami_available demo_env;
          ami_available_other_region := ami_available_other_region demo_env;
          terraform_apply := terraform_apply demo_env;
          terraform_destroy := terraform_destroy demo_env;
          popen := popen demo_env;
          open_file := open_file demo_env;
          export_search := export_search demo_env;
          get_all_instances := fun _ _ _ _ =>
            [{| Tags := Tags demo_win; State_Name := "running";
                NetworkInterfaces := NetworkInterfaces demo_win |}];
          get_single_instance_public_ip :=
            get_single_instance_public_ip demo_env;
          read_file := read_file demo_env |} demo_self [] =
  (Raised (KeyError "Association"),
   [LogInfo ("[action] > show" ++ nl);
    GetAllInstances "attack-range-key-pair" "default" "eu-central-1"
      [{| Tags := Tags demo_win; State_Name := "running";
          NetworkInterfaces := NetworkInterfaces demo_win |}]]).
Proof. reflexivity. Qed.

(** C7, as stated, fails: an inventory of one running instance that
    has no public address gets no row; [show] raises with nothing
    printed. *)
Lemma show_renders_inventory_counterexample :
  let inventory :=
    [{| Tags := [{| Key := "Name"; Value := "ar-win-0" |}];
        State_Name := "running";
        NetworkInterfaces := [{| Association := None |}] |}] in
  show (demo_env_with true inventory) demo_self [] =
  (Raised (KeyError "Association"),
   [LogInfo ("[action] > show" ++ nl);
    GetAllInstances "attack-range-key-pair" "default" "eu-central-1"
      inventory])
  /\ forall rows headers,
       ~ In (PrintTable rows headers)
            (snd (show (demo_env_with true inventory) demo_self [])).
Proof.
  cbv zeta. split; [reflexivity|].
  intros rows headers. cbn. intros [H|[H|[]]]; discriminate.
Qed.

(** C7, amended: [show] asks for the instances of the configured key
    name, range name and region.  When every instance has a first tag
    and every running one a public address on its first network
    interface, [show] returns, and: with no instance it prints the
    error line and no table; otherwise it prints one table with one
    row per instance, in order (name, state and public address for a
    running instance, name and state for any other) and, when an
    instance is running, after the table the connection message of
    each running instance whose name has one of the six prefixes, as
    the source writes it out, followed by the prelude message when
    prelude is switched on.  (When an instance lacks one of these
    fields [show] raises instead, with nothing printed.) *)
Theorem show_renders_inventory (env : environment) (self : AwsController)
        (h : history) :
  let cfg := self_config self in
  let started := LogInfo ("[action] > show" ++ nl) in
  let instances :=
    get_all_instances env (h ++ [started])%list (general_key_name cfg)
      (general_attack_range_name cfg) (aws_region cfg) in
  let asked :=
    [started;
     GetAllInstances (general_key_name cfg) (general_attack_range_name cfg)
       (aws_region cfg) instances] in
  let prelude := String.eqb (simulation_prelude cfg) "1" in
  let token_path := "/var/tmp/.prelude_session_token" in
  let content := read_file env (h ++ asked)%list token_path in
  let token := match content with Some t => t | None => "" end in
  let token_events :=
    if prelude then
      ReadFile token_path content
      :: match content with
         | Some _ => []
         | None => [LogError ("was not able to read prelude token from "
                              ++ token_path)]
         end
    else [] in
  let prelude_messages :=
    if prelude then
      [nl ++ "Access Prelude Operator UI via:" ++ nl ++ tab
       ++ "redirector FQDN > " ++ last_splunk_ip instances ""
       ++ nl ++ tab ++ "Token: " ++ token ++ nl ++ tab
       ++ "See guide details: https://github.com/splunk/attack_range/wiki/Prelude-Operator"]
    else [] in
  forallb has_shape instances = true ->
  show env self h =
  (Returned tt,
   (asked ++ token_events
    ++ Print ""
    :: Print ("Status Virtual Machines" ++ nl)
    :: match instances with
       | [] => [Print "ERROR: Can't find configured Attack Range Instances"]
       | _ :: _ =>
           if existsb is_running instances then
             PrintTable (map row instances) ["Name"; "Status"; "IP Address"]
             :: map Print (flat_map (connection_info self) instances
                           ++ prelude_messages)
             ++ [Print ""]
           else
             [PrintTable (map row instances) ["Name"; "Status"]; Print ""]
       end)%list)
  /\ (forall i,
        row i = (if is_running i
                 then [name_of i; State_Name i; public_ip_of i]
                 else [name_of i; State_Name i])
        /\ List.length (connection_info self i) =
           (if (is_running i && recognized (name_of i))%bool
            then 1%nat else 0%nat)).
Proof.
  intros cfg started instances asked prelude token_path content token
         token_events prelude_messages Hshape.
  split; [|intros i; split; [reflexivity | apply connection_info_length]].
  unfold show. fold cfg. unfold logger_info at 1.
  rewrite bind_emit, bind_ask. fold started. fold instances.
  rewrite bind_run, (show_loop_splunk_ip self instances _ _ Hshape).
  cbn [fst snd response messages instances_running splunk_ip app orb].
  rewrite app_nil_r, <- app_assoc. cbn [app]. fold asked.
  assert (Hprint : forall (msgs : list string) (h' : history),
    ((print "" ;; print ("Status Virtual Machines" ++ nl) ;;
      if (0 <? List.length (map row instances))%nat then
        (if existsb is_running instances then
           emit (PrintTable (map row instances) ["Name"; "Status"; "IP Address"]) ;;
           for_each msgs print
         else emit (PrintTable (map row instances) ["Name"; "Status"])) ;;
        print ""
      else print "ERROR: Can't find configured Attack Range Instances") h')
    = (Returned tt,
       Print "" :: Print ("Status Virtual Machines" ++ nl)
       :: match instances with
          | [] => [Print "ERROR: Can't find configured Attack Range Instances"]
          | _ :: _ =>
              if existsb is_running instances then
                (PrintTable (map row instances) ["Name"; "Status"; "IP Address"]
                 :: map Print msgs ++ [Print ""])%list
              else [PrintTable (map row instances) ["Name"; "Status"];
                    Print ""]
          end)).
  { intros msgs h'. unfold print at 1 2. rewrite !bind_emit.
    destruct instances as [|i rest]; [reflexivity|].
    cbn [map List.length Nat.ltb Nat.leb].
    destruct (existsb is_running (i :: rest)).
    - rewrite bind_assoc, bind_emit, bind_run, for_each_print.
      reflexivity.
    - reflexivity. }
  subst token_events prelude_messages token. fold prelude.
  destruct prelude.
  - unfold get_prelude_token. rewrite !bind_assoc, bind_ask.
    fold token_path. fold content.
    destruct content as [t|].
    + rewrite !bind_ret, Hprint. unfold asked. reflexivity.
    + unfold logger_error. rewrite bind_assoc, bind_emit, !bind_ret, Hprint.
      unfold asked. reflexivity.
  - rewrite bind_ret, Hprint, app_nil_r. unfold asked. reflexivity.
Qed.

Lemma show_renders_inventory_witness :
  show demo_env demo_self [] =
  (Returned tt,
   [LogInfo ("[action] > show" ++ nl);
    GetAllInstances "attack-range-key-pair" "default" "eu-central-1"
      [demo_splunk; demo_win];
    Print "";
    Print ("Status Virtual Machines" ++ nl);
    PrintTable
      [["ar-splunk-attack-range-key-pair-default"; "running"; "18.0.0.1"];
       ["ar-win-attack-range-key-pair-default-0"; "stopped"]]
      ["Name"; "Status"; "IP Address"];
    Print (nl ++ "Access Splunk via:" ++ nl ++ tab
           ++ "Web > http://18.0.0.1:8000" ++ nl ++ tab
           ++ "SSH > ssh -i~/.ssh/id_rsa ubuntu@18.0.0.1" ++ nl ++ tab
           ++ "username: admin " ++ nl ++ tab
           ++ "password: Pl3ase-k1Ll-me:p");
    Print ""]).
Proof.
  exact (proj1 (show_renders_inventory demo_env demo_self [] eq_refl)).
Defined.

(** * Further properties *)

(** ** Construction and what follows it *)

(** X1: Whatever is done with the controller once it is constructed, none
    of it runs when the region check fails: the run ends with the exit
    of the constructor.  When the check passes, the continuation runs
    on the constructed controller right after the three events of the
    constructor. *)
Theorem init_guards_continuation {A} (env : environment) (cfg : config)
        (k : AwsController -> M A) (h : history) :
  let ok := check_region env (h ++ [AttackRangeController_init cfg])%list
                         (aws_region cfg) in
  let working_dir := os_path_join (module_dir env) "../terraform/aws" in
  let constructed := [AttackRangeController_init cfg;
                      CheckRegion (aws_region cfg) true;
                      Terraform working_dir cfg 15] in
  (self <- init env cfg ;; k self) h =
  if ok then
    after constructed
          (k {| self_config := cfg;
                self_terraform := (working_dir, cfg, 15%Z) |}
             (h ++ constructed)%list)
  else
    (SysExit 1,
     [AttackRangeController_init cfg;
      CheckRegion (aws_region cfg) false;
      LogError "AWS cli region and region in config file are not the same."]).
Proof.
  cbv zeta. unfold init. unfold logger_error. repeat run_step.
  destruct (check_region env (h ++ [AttackRangeController_init cfg])%list
              (aws_region cfg)); cbn [negb]; repeat run_step;
    rewrite ?after_after, ?after_pair, <- ?app_assoc; reflexivity.
Qed.

(** ** The families of the image builder *)

Lemma prefix_split (p s : string) :
  String.prefix p s = true -> exists rest, s = p ++ rest.
Proof.
  revert s. induction p as [|a p IH]; intros s Hp.
  - now exists s.
  - destruct s as [|b s]; [discriminate|]. cbn in Hp.
    destruct (ascii_dec a b) as [->|]; [|discriminate].
    destruct (IH s Hp) as [rest ->]. now exists rest.
Qed.

(** X2: A name starts with at most one family, so the order in which
    [packer] tests the prefixes is immaterial: the target and the
    template are those of the table entry of any family the name
    starts with. *)
Theorem packer_select_by_table (image_name family : string)
        (choice : string * string) :
  In (family, choice) family_table ->
  startswith image_name family = true ->
  packer_select image_name = choice
  /\ (forall other, In other families ->
                    startswith image_name other = true -> other = family).
Proof.
  intros Hin Hstart. apply prefix_split in Hstart.
  destruct Hstart as [rest ->].
  unfold family_table in Hin. cbn [In] in Hin.
  assert (Hfam : forall other, In other families ->
            other = "splunk" \/ other = "linux" \/ other = "nginx"
            \/ other = "windows-2016" \/ other = "windows-2019")
    by (intros other Ho; cbn in Ho; intuition auto).
  repeat (destruct Hin as [Hin|Hin]; [injection Hin as <- <-|]);
    try contradiction;
    (split;
     [unfold packer_select, startswith; cbn; now rewrite prefix_nil
     |intros other Ho Hs; apply Hfam in Ho;
      repeat (destruct Ho as [->|Ho]); try subst other;
      try reflexivity; unfold startswith in Hs; cbn in Hs; discriminate]).
Qed.

Lemma packer_select_by_table_witness :
  packer_select "windows-2019-v3-0-0" =
    ("amazon-ebs.windows", "packer/windows_server/windows_2019.pkr.hcl")
  /\ (forall other, In other families ->
                    startswith "windows-2019-v3-0-0" other = true ->
                    other = "windows-2019").
Proof.
  apply (@packer_select_by_table "windows-2019-v3-0-0" "windows-2019").
  - cbn. tauto.
  - reflexivity.
Defined.

(** ** What the methods may and may not do *)

Lemma events_for_each_in {A} (P : event -> Prop) (xs : list A)
      (body : A -> M unit) (h : history) :
  (forall x h', In x xs -> Forall P (snd (body x h'))) ->
  Forall P (snd (for_each xs body h)).
Proof.
  revert h. induction xs as [|x xs IH]; intros h Hbody; cbn [for_each].
  - apply events_ret.
  - apply events_bind.
    + apply Hbody. now left.
    + intros _ h'. apply IH. intros y h'' Hy. apply Hbody. now right.
Qed.

(** [show] only observes: it logs, prints, asks for the instances and
    reads the token file, whatever the inventory looks like. *)
Lemma show_observes (env : environment) (self : AwsController) (h : history) :
  Forall (fun e => observes e = true) (snd (show env self h)).
Proof. apply (show_events observes); intros; reflexivity. Qed.

Section May.

Variable env : environment.
Variable self : AwsController.

Ltac may :=
  unfold logger_info, logger_error, print; cbv zeta;
  repeat first
    [ apply events_ret | apply events_sys_exit | apply events_raise
    | apply events_never_returns
    | apply events_emit; cbn; tauto
    | apply events_ask; intros; cbn; first [tauto | auto 10]
    | apply events_bind; [|intros ? ?]
    | apply events_for_each; intros ? ?
    | match goal with
      | |- Forall _ (snd ((if ?c then _ else _) _)) => destruct c
      | |- Forall _ (snd ((match ?c with _ => _ end) _)) => destruct c
      end ].

Lemma packer_may (img : string) (h : history) :
  Forall (build_may self) (snd (packer env img h)).
Proof.
  unfold packer, packer_select, packer_line.
  destruct (startswith img "splunk");
    [|destruct (startswith img "linux");
      [|destruct (startswith img "nginx");
        [|destruct (startswith img "windows-2016");
          [|destruct (startswith img "windows-2019")]]]];
    cbv beta iota; simpl (String.eqb _ ""); cbv beta iota.
  1-5: may.
  unfold logger_info, logger_error. repeat run_step.
  cbn. repeat constructor.
Qed.

Lemma build_image_may (img : string) (h : history) :
  In img (build_images self) ->
  Forall (build_may self) (snd (build_image env self img h)).
Proof.
  intros Hin. unfold build_image.
  unfold logger_info.
  apply events_bind; [apply events_ask; intros; cbn; tauto | intros a h1].
  destruct (negb a); [|may].
  apply events_bind; [may | intros _ h2].
  apply events_bind; [may | intros _ h3].
  apply events_bind; [apply events_ask; intros; cbn; tauto | intros o h4].
  destruct o as [found|].
  - may.
  - apply events_bind; [may | intros _ h5]. apply packer_may.
Qed.

End May.

(** X3: [build] does nothing but what [build_may] lists.  In particular
    the builder is only ever started with one of the five fixed command
    lines (the image name is no part of it), images are only copied
    into the configured region, and nothing is stopped, resumed,
    destroyed, simulated or exported. *)
Theorem build_stays_within (env : environment) (self : AwsController)
        (h : history) :
  Forall (build_may self) (snd (build env self h)).
Proof.
  unfold build. unfold logger_info at 1 2.
  apply events_bind; [apply events_emit; exact I | intros _ h1].
  apply events_bind; [apply events_emit; exact I | intros _ h2].
  apply events_bind.
  { apply events_for_each_in. intros img h' Hin.
    now apply build_image_may. }
  intros _ h3.
  apply events_bind; [apply events_ask; intros; reflexivity | intros rc h4].
  apply events_bind.
  { destruct (rc =? 0)%Z; [apply events_emit; exact I | apply events_ret]. }
  intros _ h5.
  eapply Forall_impl; [|apply show_observes].
  intros e He. destruct e; try discriminate; exact I.
Qed.

(** ** Ending the process *)

Lemma exit_code_bind {A B} (m : M A) (k : A -> M B) (h : history) :
  exit_code (fst ((x <- m ;; k x) h)) =
  match fst (m h) with
  | Returned a => exit_code (fst (k a (h ++ snd (m h))%list))
  | SysExit c => Some c
  | Raised _ | NeverReturns => None
  end.
Proof. rewrite bind_run. now destruct (fst (m h)). Qed.

Lemma no_exit_bind {A B} (m : M A) (k : A -> M B) (h : history) :
  exit_code (fst (m h)) = None ->
  (forall a h', exit_code (fst (k a h')) = None) ->
  exit_code (fst ((x <- m ;; k x) h)) = None.
Proof.
  intros Hm Hk. rewrite exit_code_bind.
  destruct (fst (m h)); [apply Hk | discriminate | reflexivity | reflexivity].
Qed.

Lemma no_exit_for_each {A} (xs : list A) (body : A -> M unit) (h : history) :
  (forall x h', exit_code (fst (body x h')) = None) ->
  exit_code (fst (for_each xs body h)) = None.
Proof.
  intros Hbody. revert h. induction xs as [|x xs IH]; intros h; [reflexivity|].
  cbn [for_each]. apply no_exit_bind; [apply Hbody | intros _ h'; apply IH].
Qed.

Ltac no_exit :=
  unfold logger_info, logger_error, print; cbv zeta;
  repeat first
    [ reflexivity
    | apply no_exit_bind; [|intros ? ?]
    | apply no_exit_for_each; intros ? ?
    | match goal with
      | |- exit_code (fst ((if ?c then _ else _) _)) = None => destruct c
      | |- exit_code (fst ((match ?c with _ => _ end) _)) = None => destruct c
      end ].

Lemma show_loop_no_exit (self : AwsController) (instances : list instance)
      (v : show_vars) (h : history) :
  exit_code (fst (show_loop self instances v h)) = None.
Proof.
  revert v h. induction instances as [|i rest IH]; intros v h; [reflexivity|].
  cbn [show_loop]. apply no_exit_bind; [|intros v' h'; apply IH].
  unfold show_instance, Tags_0_Value, NetworkInterfaces_0_PublicIp. no_exit.
Qed.

Lemma show_never_exits (env : environment) (self : AwsController)
      (h : history) :
  exit_code (fst (show env self h)) = None.
Proof.
  unfold show, get_prelude_token.
  apply no_exit_bind; [reflexivity | intros _ h1].
  apply no_exit_bind; [reflexivity | intros instances h2].
  apply no_exit_bind; [apply show_loop_no_exit | intros v h3].
  no_exit.
Qed.

(** X4: [show] changes nothing and never ends the process: whatever the
    inventory, all it does is log, print, ask for the instances and
    read the token file, and it never calls [sys.exit]. *)
Theorem show_only_observes (env : environment) (self : AwsController)
        (h : history) :
  Forall (fun e => observes e = true) (snd (show env self h))
  /\ exit_code (fst (show env self h)) = None.
Proof. split; [apply show_observes | apply show_never_exits]. Qed.

(** ** Instances that lack what [show] reads *)

Lemma show_loop_silent (self : AwsController) (instances : list instance)
      (v : show_vars) (h : history) :
  snd (show_loop self instances v h) = [].
Proof.
  pose proof (show_loop_events (fun _ => false) self instances v h) as Hnone.
  destruct (snd (show_loop self instances v h)) as [|e es]; [reflexivity|].
  inversion Hnone; discriminate.
Qed.

Lemma show_instance_raises (self : AwsController) (v : show_vars)
      (i : instance) (h : history) :
  has_shape i = false ->
  exists x, show_instance self v i h = (Raised x, []).
Proof.
  unfold has_shape, is_running, show_instance, Tags_0_Value,
    NetworkInterfaces_0_PublicIp.
  destruct (String.eqb (State_Name i) "running");
    destruct (Tags i) as [|t tags]; intros Hshape;
    try (eexists; reflexivity); try discriminate.
  destruct (NetworkInterfaces i) as [|[[a|]] nis]; try discriminate;
    eexists; reflexivity.
Qed.

Lemma show_loop_raises (self : AwsController) (instances : list instance)
      (v : show_vars) (h : history) :
  forallb has_shape instances = false ->
  exists x, show_loop self instances v h = (Raised x, []).
Proof.
  revert v h. induction instances as [|i rest IH]; intros v h Hshape;
    [discriminate|].
  cbn [forallb show_loop] in *. rewrite bind_run.
  destruct (has_shape i) eqn:Hi.
  - destruct (show_instance_run self v i h Hi) as [sip ->].
    cbn [fst snd andb] in *.
    match goal with
    | |- context [show_loop self rest ?v' ?h'] =>
        destruct (IH v' h' Hshape) as [x ->]
    end.
    now exists x.
  - destruct (show_instance_raises self v i h Hi) as [x ->]. now exists x.
Qed.

(** X5: One instance without a first tag, or running without a public
    address on its first network interface, makes [show] fail with
    nothing printed: no table and no message for any instance. *)
Theorem show_all_or_nothing (env : environment) (self : AwsController)
        (h : history) :
  let cfg := self_config self in
  let started := LogInfo ("[action] > show" ++ nl) in
  let instances :=
    get_all_instances env (h ++ [started])%list (general_key_name cfg)
      (general_attack_range_name cfg) (aws_region cfg) in
  forallb has_shape instances = false ->
  exists x,
    show env self h =
    (Raised x,
     [started;
      GetAllInstances (general_key_name cfg) (general_attack_range_name cfg)
        (aws_region cfg) instances]).
Proof.
  intros cfg started instances Hshape.
  unfold show. fold cfg. unfold logger_info at 1.
  rewrite bind_emit, bind_ask. fold started. fold instances.
  rewrite bind_run.
  destruct (show_loop_raises self instances
              {| response := []; messages := []; instances_running := false;
                 splunk_ip := "" |}
              ((h ++ [started]) ++
               [GetAllInstances (general_key_name cfg)
                  (general_attack_range_name cfg) (aws_region cfg)
                  instances])%list Hshape) as [x ->].
  exists x. reflexivity.
Qed.

Lemma show_all_or_nothing_witness :
  exists x,
    show (demo_env_with true [demo_splunk;
                              {| Tags := []; State_Name := "stopped";
                                 NetworkInterfaces := [] |}])
         demo_self [] =
    (Raised x,
     [LogInfo ("[action] > show" ++ nl);
      GetAllInstances "attack-range-key-pair" "default" "eu-central-1"
        [demo_splunk;
         {| Tags := []; State_Name := "stopped"; NetworkInterfaces := [] |}]]).
Proof.
  exact (show_all_or_nothing
           (demo_env_with true [demo_splunk;
                                {| Tags := []; State_Name := "stopped";
                                   NetworkInterfaces := [] |}])
           demo_self [] eq_refl).
Defined.

(** ** How [build] ends *)

Section BuildOutcome.

Variable env : environment.
Variable self : AwsController.

Let r := aws_region (self_config self).



(** With images of the five families and builders that start and exit,
    every step returns. *)
Lemma build_image_returns (img : string) (h : history) :
  supported img = true ->
  (forall h' argv, exists running_lines final_line returncode,
      popen env h' argv = inr (Exits running_lines final_line returncode)) ->
  fst (build_image env self img h) = Returned tt.
Proof.
  intros Hfamily Hbuilder. rewrite build_image_run. fold r.
  destruct (ami_available env h img r); [reflexivity|]. cbv zeta.
  destruct (ami_available_other_region env _ img); [reflexivity|].
  rewrite packer_run. cbv zeta. rewrite Hfamily.
  match goal with
  | |- context [popen env ?h' ?argv] =>
      destruct (Hbuilder h' argv) as (lines & final & code & ->)
  end.
  reflexivity.
Qed.

Lemma build_loop_returns (images : list string) (h : history) :
  forallb supported images = true ->
  (forall h' argv, exists running_lines final_line returncode,
      popen env h' argv = inr (Exits running_lines final_line returncode)) ->
  fst (for_each images (build_image env self) h) = Returned tt.
Proof.
  intros Hall Hbuilder. revert h.
  induction images as [|img images IH]; intros h; [reflexivity|].
  cbn [forallb] in Hall. apply andb_prop in Hall. destruct Hall as [Himg Hall].
  cbn [for_each]. rewrite bind_run.
  rewrite (build_image_returns img h Himg Hbuilder). cbn [after fst].
  now apply IH.
Qed.

Lemma build_loop_no_apply (images : list string) (h : history) :
  Forall (fun e => is_apply e = false)
         (snd (for_each images (build_image env self) h)).
Proof.
  eapply Forall_impl;
    [|apply events_for_each; intros img h'; apply build_image_before_apply].
  intros e He. cbv beta in He. now destruct e.
Qed.

Lemma show_no_apply (h : history) :
  Forall (fun e => is_apply e = false) (snd (show env self h)).
Proof.
  eapply Forall_impl; [|apply show_observes].
  intros e He. cbv beta in He. now destruct e.
Qed.

End BuildOutcome.



(** X7: When every image of the list belongs to a family, and every
    builder that is started does start and does exit, [build] comes to
    the terraform apply and applies exactly once, wherever the images
    are found and whatever the builder prints or returns (its exit
    status is never looked at); what follows the apply is the run of
    [show], and [build] ends as [show] ends. *)
Theorem build_applies_once (env : environment) (self : AwsController)
        (h : history) :
  forallb supported (build_images self) = true ->
  (forall h' argv, exists running_lines final_line returncode,
      popen env h' argv = inr (Exits running_lines final_line returncode)) ->
  exists pre return_code,
    let applied :=
      TerraformApply (self_terraform self) return_code
      :: (if (return_code =? 0)%Z
          then [LogInfo "attack_range has been built using terraform successfully"]
          else []) in
    build env self h =
      after (pre ++ applied)%list (show env self (h ++ pre ++ applied)%list)
    /\ Forall (fun e => is_apply e = false) pre
    /\ Forall (fun e => is_apply e = false)
              (snd (show env self (h ++ pre ++ applied)%list)).
Proof.
  intros Hall Hbuilder.
  pose proof (build_run env self h) as Hbuild. cbv zeta in Hbuild.
  set (logs := [LogInfo ("[action] > build" ++ nl); _]) in Hbuild.
  set (loop := for_each _ _ _) in Hbuild.
  pose proof (build_loop_returns env self (build_images self)
                (h ++ logs)%list Hall Hbuilder) as Hloop.
  fold loop in Hloop. rewrite Hloop in Hbuild.
  exists (logs ++ snd loop)%list, (terraform_apply env (h ++ logs ++ snd loop)%list).
  cbv zeta. rewrite <- !app_assoc. split; [|split].
  - rewrite Hbuild. now rewrite <- !app_assoc.
  - apply Forall_app. split; [repeat constructor|].
    apply build_loop_no_apply.
  - apply show_no_apply.
Qed.

Lemma build_applies_once_witness :
  exists pre return_code,
    let applied :=
      TerraformApply (self_terraform demo_self) return_code
      :: (if (return_code =? 0)%Z
          then [LogInfo "attack_range has been built using terraform successfully"]
          else []) in
    build demo_env demo_self [] =
      after (pre ++ applied)%list (show demo_env demo_self ([] ++ pre ++ applied)%list)
    /\ Forall (fun e => is_apply e = false) pre
    /\ Forall (fun e => is_apply e = false)
              (snd (show demo_env demo_self ([] ++ pre ++ applied)%list)).
Proof.
  apply (build_applies_once demo_env demo_self []).
  - reflexivity.
  - intros h' argv. do 3 eexists. reflexivity.
Defined.

(** ** Images that are all there *)

Lemma build_loop_available (env : environment) (self : AwsController)
      (images : list string) (h : history) :
  let r := aws_region (self_config self) in
  (forall h' img, ami_available env h' img r = true) ->
  for_each images (build_image env self) h =
  (Returned tt,
   flat_map (fun img =>
               [AmiAvailable img r true;
                LogInfo ("Image " ++ img ++ " is available in region " ++ r)])
            images).
Proof.
  intros r Havailable. revert h.
  induction images as [|img images IH]; intros h; [reflexivity|].
  cbn [for_each flat_map]. rewrite bind_run, build_image_run.
  fold r. rewrite Havailable. cbn [fst snd]. rewrite IH. reflexivity.
Qed.

(** X8: When every image is available in the configured region, [build]
    only asks once per image, in the order of its list: it looks in no
    other region, copies nothing and starts no builder, and goes on to
    the apply and to [show]. *)
Theorem build_with_images_available (env : environment)
        (self : AwsController) (h : history) :
  let r := aws_region (self_config self) in
  let logs := [LogInfo ("[action] > build" ++ nl);
               LogInfo ("Check if images are available in region " ++ r)] in
  let checks :=
    flat_map (fun img =>
                [AmiAvailable img r true;
                 LogInfo ("Image " ++ img ++ " is available in region " ++ r)])
             (build_images self) in
  let return_code := terraform_apply env (h ++ logs ++ checks)%list in
  let applied :=
    TerraformApply (self_terraform self) return_code
    :: (if (return_code =? 0)%Z
        then [LogInfo "attack_range has been built using terraform successfully"]
        else []) in
  (forall h' img, ami_available env h' img r = true) ->
  build env self h =
  after (logs ++ checks ++ applied)%list
        (show env self ((h ++ logs ++ checks) ++ applied)%list).
Proof.
  intros r logs checks return_code applied Havailable.
  pose proof (build_run env self h) as Hbuild. cbv zeta in Hbuild.
  rewrite (build_loop_available env self (build_images self) _ Havailable)
    in Hbuild.
  exact Hbuild.
Qed.

Lemma build_with_images_available_witness :
  build (demo_env_with true [demo_win]) demo_self [] =
  (Returned tt,
   [LogInfo ("[action] > build" ++ nl);
    LogInfo "Check if images are available in region eu-central-1";
    AmiAvailable "splunk-v3-0-0" "eu-central-1" true;
    LogInfo "Image splunk-v3-0-0 is available in region eu-central-1";
    AmiAvailable "windows-2016-v3-0-0" "eu-central-1" true;
    LogInfo "Image windows-2016-v3-0-0 is available in region eu-central-1";
    AmiAvailable "linux-v3-0-0" "eu-central-1" true;
    LogInfo "Image linux-v3-0-0 is available in region eu-central-1";
    AmiAvailable "nginx-web-proxy-v3-0-0" "eu-central-1" true;
    LogInfo "Image nginx-web-proxy-v3-0-0 is available in region eu-central-1";
    TerraformApply (self_terraform demo_self) 1;
    LogInfo ("[action] > show" ++ nl);
    GetAllInstances "attack-range-key-pair" "default" "eu-central-1"
      [demo_win];
    Print "";
    Print ("Status Virtual Machines" ++ nl);
    PrintTable [["ar-win-attack-range-key-pair-default-0"; "stopped"]]
               ["Name"; "Status"];
    Print ""]).
Proof.
  exact (build_with_images_available (demo_env_with true [demo_win])
           demo_self [] (fun _ _ => eq_refl)).
Defined.

(** ** The status table *)

Lemma events_bind_returned {A B} (P : event -> Prop) (m : M A)
      (k : A -> M B) (h : history) :
  Forall P (snd (m h)) ->
  (forall a, fst (m h) = Returned a ->
             Forall P (snd (k a (h ++ snd (m h))%list))) ->
  Forall P (snd ((x <- m ;; k x) h)).
Proof.
  intros Hm Hk. rewrite bind_run.
  destruct (fst (m h)) as [a|c|x|]; cbn; try exact Hm.
  apply Forall_app. split; [exact Hm | now apply Hk].
Qed.

Lemma rows_fit (instances : list instance) :
  Forall (fun cells =>
            (2 <= List.length cells
             <= if existsb is_running instances then 3 else 2)%nat)
         (map row instances).
Proof.
  induction instances as [|i rest IH]; [constructor|].
  cbn [map existsb]. constructor.
  - unfold row. destruct (is_running i); cbn; [lia|].
    destruct (existsb is_running rest); lia.
  - eapply Forall_impl; [|exact IH]. cbv beta. intros cells Hcells.
    destruct (is_running i); cbn [orb]; [|exact Hcells].
    destruct (existsb is_running rest); lia.
Qed.

(** X9: For every inventory, a table [show] prints is the table of the
    instances it was given: one row per instance, in order, and no row
    wider than the header; the three-column header is the one used as
    soon as one instance runs, and under the two-column header every
    row has exactly two cells. *)
Theorem show_table_fits (env : environment) (self : AwsController)
        (h : history) :
  let cfg := self_config self in
  let started := LogInfo ("[action] > show" ++ nl) in
  let instances :=
    get_all_instances env (h ++ [started])%list (general_key_name cfg)
      (general_attack_range_name cfg) (aws_region cfg) in
  Forall (table_of instances) (snd (show env self h)).
Proof.
  intros cfg started instances.
  unfold show, get_prelude_token. fold cfg.
  unfold logger_info, logger_error, print.
  apply events_bind_returned; [apply events_emit; exact I | intros _ _].
  cbn [emit snd]. fold started.
  apply events_bind_returned; [apply events_ask; intros; exact I|].
  intros answer Hanswer. cbn [ask fst] in Hanswer.
  injection Hanswer as <-. fold instances. cbn [ask snd].
  apply events_bind_returned; [now rewrite show_loop_silent|].
  intros v Hv. rewrite show_loop_silent.
  assert (Hrows : response v = map row instances
                  /\ instances_running v = existsb is_running instances).
  { destruct (forallb has_shape instances) eqn:Hshape.
    - rewrite (show_loop_splunk_ip self instances _ _ Hshape) in Hv.
      cbn in Hv. injection Hv as <-. now split.
    - match type of Hv with
      | fst (show_loop self instances ?v0 ?h0) = _ =>
          destruct (show_loop_raises self instances v0 h0 Hshape)
            as [x Hloop]
      end.
      rewrite Hloop in Hv. discriminate. }
  destruct Hrows as [Hresponse Hrunning]. rewrite Hresponse, Hrunning.
  pose proof (rows_fit instances) as Hfit. clear Hv Hresponse Hrunning.
  apply events_bind.
  { destruct (String.eqb _ "1"); [|apply events_ret].
    apply events_bind; [|intros; apply events_ret].
    apply events_bind; [apply events_ask; intros; exact I | intros o h'].
    destruct o; [apply events_ret|].
    apply events_bind; [apply events_emit; exact I | intros; apply events_ret]. }
  intros msgs h3.
  apply events_bind; [apply events_emit; exact I | intros _ h4].
  apply events_bind; [apply events_emit; exact I | intros _ h5].
  destruct (0 <? _)%nat; [|apply events_emit; exact I].
  apply events_bind; [|intros; apply events_emit; exact I].
  unfold table_of.
  destruct (existsb is_running instances).
  - apply events_bind; [apply events_emit; now repeat split | intros _ h6].
    apply events_for_each. intros msg h7. apply events_emit. exact I.
  - apply events_emit. now repeat split.
Qed.

(** ** The file of a dump *)

Lemma prefix_app (a b : string) : String.prefix a (a ++ b) = true.
Proof.
  induction a as [|c a IH]; cbn; [apply prefix_nil|].
  destruct (ascii_dec c c) as [_|Hc]; [exact IH | contradiction].
Qed.

(** X10: [dump] touches one file only, and its path always begins with the
    module directory: since ["../"] is put before [dump_name], even an
    absolute [dump_name] does not make the join drop the directory. *)
Theorem dump_file_under_module_dir (env : environment) (self : AwsController)
        (dump_name search earliest latest : string) (h : history) :
  let out := os_path_join (module_dir env) ("../" ++ dump_name) in
  Forall (fun e => file_of e = None \/ file_of e = Some out)
         (snd (dump env self dump_name search earliest latest h))
  /\ startswith out (module_dir env) = true
  /\ (out = module_dir env ++ "../" ++ dump_name
      \/ out = module_dir env ++ "/../" ++ dump_name).
Proof.
  intros out. split; [|split].
  - unfold dump, open_wb, logger_info. fold out.
    repeat first
      [ apply events_bind; [|intros ? ?]
      | apply events_emit; cbn; auto
      | apply events_attempt; cbn; auto
      | apply events_ask; intros; cbn; auto ].
  - subst out. unfold os_path_join, startswith. cbn.
    destruct (String.eqb (module_dir env) "" || endswith_sep (module_dir env))%bool;
      apply prefix_app.
  - subst out. unfold os_path_join, startswith. cbn.
    destruct (String.eqb (module_dir env) "" || endswith_sep (module_dir env))%bool;
      [now left | now right].
Qed.

(** ** Replay *)

Example replay_demo :
  replay demo_env demo_self "attack.log" "test" "xmlwineventlog" "sysmon" [] =
  (Returned tt,
   [GetSingleInstancePublicIp "ar-splunk-attack-range-key-pair-default"
      "attack-range-key-pair" "default" "eu-central-1" "18.0.0.1";
    AnsibleRun "/opt/attack_range/modules/../" "-i 18.0.0.1, -u ubuntu"
      "/opt/attack_range/modules/ansible/roles"
      "/opt/attack_range/modules/ansible/data_replay.yml"
      [("file_name", PyStr "attack.log");
       ("ansible_user", PyStr "ubuntu");
       ("ansible_ssh_private_key_file", PyStr "~/.ssh/id_rsa");
       ("attack_range_password", PyStr "Pl3ase-k1Ll-me:p");
       ("ansible_port", PyInt 22);
       ("sourcetype", PyStr "xmlwineventlog");
       ("source", PyStr "sysmon");
       ("index", PyStr "test")]]).
Proof. reflexivity. Qed.

(** X11: [replay] always returns: the lookup of ['ansible_user'] it
    makes in its own dictionary never fails.  It runs the playbook
    once, against the address of the instance named as [dump] names it
    whenever [dump] gets past its open (a name [show] takes for the
    splunk server), as user [ubuntu]; the four arguments are handed
    over unchanged under their own keys and cannot displace the
    connection settings. *)
Theorem replay_runs_playbook (env : environment) (self : AwsController)
        (file_name index sourcetype source : string) (h : history) :
  let cfg := self_config self in
  let splunk_instance := "ar-splunk-" ++ general_key_name cfg ++ "-"
                         ++ general_attack_range_name cfg in
  let splunk_ip :=
    get_single_instance_public_ip env h splunk_instance (general_key_name cfg)
      (general_attack_range_name cfg) (aws_region cfg) in
  exists extravars,
    replay env self file_name index sourcetype source h =
    (Returned tt,
     [GetSingleInstancePublicIp splunk_instance (general_key_name cfg)
        (general_attack_range_name cfg) (aws_region cfg) splunk_ip;
      AnsibleRun (os_path_join (module_dir env) "../")
        ("-i " ++ splunk_ip ++ ", -u ubuntu")
        (os_path_join (module_dir env) "ansible/roles")
        (os_path_join (module_dir env) "ansible/data_replay.yml")
        extravars])
    /\ map fst extravars =
       ["file_name"; "ansible_user"; "ansible_ssh_private_key_file";
        "attack_range_password"; "ansible_port"; "sourcetype"; "source";
        "index"]
    /\ dict_get extravars "file_name" = Some (PyStr file_name)
    /\ dict_get extravars "index" = Some (PyStr index)
    /\ dict_get extravars "sourcetype" = Some (PyStr sourcetype)
    /\ dict_get extravars "source" = Some (PyStr source)
    /\ dict_get extravars "ansible_user" = Some (PyStr "ubuntu")
    /\ dict_get extravars "ansible_port" = Some (PyInt 22)
    /\ dict_get extravars "ansible_ssh_private_key_file" =
       Some (PyStr (aws_private_key_path cfg))
    /\ dict_get extravars "attack_range_password" =
       Some (PyStr (general_attack_range_password cfg))
    /\ startswith splunk_instance "ar-splunk" = true
    /\ forall dump_name search earliest latest h',
         (exists host,
             In (GetSingleInstancePublicIp splunk_instance
                   (general_key_name cfg) (general_attack_range_name cfg)
                   (aws_region cfg) host)
                (snd (dump env self dump_name search earliest latest h')))
         \/ (exists x,
                dump env self dump_name search earliest latest h' =
                (Raised x,
                 [LogInfo "Dump log data";
                  LogInfo ("Dumping Splunk Search: " ++ "search " ++ search
                           ++ " earliest=-" ++ earliest ++ " latest="
                           ++ latest ++ " | sort 0 _time");
                  OpenFile (os_path_join (module_dir env)
                              ("../" ++ dump_name)) "wb"])).
Proof.
  intros cfg splunk_instance splunk_ip.
  eexists. split; [reflexivity|].
  repeat (split; [reflexivity|]).
  intros dump_name search earliest latest h'.
  unfold dump, open_wb, logger_info. fold cfg.
  rewrite !bind_emit, bind_attempt.
  destruct (if endswith_sep _ then _ else _) as [x|].
  - right. exists x. reflexivity.
  - left. eexists. rewrite bind_ask.
    unfold after. cbn [snd app]. do 3 right. left. reflexivity.
Qed.

(** ** The prelude message *)


(** X12: With prelude switched on, a well-formed inventory and an instance
    running, the message [show] prints last is the prelude message.
    The redirector it names is the address of the last running
    instance whose name starts with ["ar-splunk"] and is empty when
    there is none; the token is the content of the token file, and
    when the file cannot be read [show] logs the failure and prints an
    empty token instead of failing. *)
Theorem show_prelude_message (env : environment) (self : AwsController)
        (h : history) :
  let cfg := self_config self in
  let started := LogInfo ("[action] > show" ++ nl) in
  let instances :=
    get_all_instances env (h ++ [started])%list (general_key_name cfg)
      (general_attack_range_name cfg) (aws_region cfg) in
  let asked :=
    [started;
     GetAllInstances (general_key_name cfg) (general_attack_range_name cfg)
       (aws_region cfg) instances] in
  let token_path := "/var/tmp/.prelude_session_token" in
  let content := read_file env (h ++ asked)%list token_path in
  let token := match content with Some t => t | None => "" end in
  let token_events :=
    ReadFile token_path content
    :: match content with
       | Some _ => []
       | None => [LogError ("was not able to read prelude token from "
                            ++ token_path)]
       end in
  forallb has_shape instances = true ->
  existsb is_running instances = true ->
  simulation_prelude cfg = "1" ->
  show env self h =
  (Returned tt,
   (asked ++ token_events
    ++ Print ""
    :: Print ("Status Virtual Machines" ++ nl)
    :: PrintTable (map row instances) ["Name"; "Status"; "IP Address"]
    :: map Print (flat_map (connection_info self) instances)
    ++ [Print (nl ++ "Access Prelude Operator UI via:" ++ nl ++ tab
               ++ "redirector FQDN > " ++ last_splunk_ip instances ""
               ++ nl ++ tab ++ "Token: " ++ token ++ nl ++ tab
               ++ "See guide details: https://github.com/splunk/attack_range/wiki/Prelude-Operator");
        Print ""])%list).
Proof.
  intros cfg started instances asked token_path content token token_events
         Hshape Hrunning Hprelude.
  unfold show. fold cfg. unfold logger_info at 1.
  rewrite bind_emit, bind_ask. fold started. fold instances.
  rewrite bind_run, (show_loop_splunk_ip self instances _ _ Hshape).
  cbn [fst snd response messages instances_running splunk_ip app orb].
  rewrite Hprelude, Hrunning. cbn [String.eqb Ascii.eqb Bool.eqb andb].
  assert (Hresponse : (0 <? List.length (map row instances))%nat = true).
  { destruct instances; [discriminate | reflexivity]. }
  rewrite Hresponse. clear Hresponse.
  unfold get_prelude_token. rewrite !bind_assoc, bind_ask.
  rewrite app_nil_r, <- app_assoc. cbn [app]. fold asked. fold token_path.
  fold content. subst token token_events.
  destruct content as [t|].
  - rewrite !bind_ret. unfold print at 1 2. rewrite !bind_emit.
    rewrite !bind_assoc, bind_emit, bind_run, for_each_print.
    unfold after. cbn [fst snd print emit app].
    rewrite map_app. cbn [map]. unfold asked. cbn [app].
    now rewrite <- app_assoc.
  - unfold logger_error. rewrite bind_assoc, bind_emit, !bind_ret.
    unfold print at 1 2. rewrite !bind_emit.
    rewrite !bind_assoc, bind_emit, bind_run, for_each_print.
    unfold after. cbn [fst snd print emit app].
    rewrite map_app. cbn [map]. unfold asked. cbn [app].
    now rewrite <- app_assoc.
Qed.

Lemma show_prelude_message_witness :
  show (demo_env_with true [demo_win; demo_splunk]) demo_self_kali [] =
  (Returned tt,
   [LogInfo ("[action] > show" ++ nl);
    GetAllInstances "attack-range-key-pair" "default" "eu-central-1"
      [demo_win; demo_splunk];
    ReadFile "/var/tmp/.prelude_session_token" (Some "token-123");
    Print "";
    Print ("Status Virtual Machines" ++ nl);
    PrintTable
      [["ar-win-attack-range-key-pair-default-0"; "stopped"];
       ["ar-splunk-attack-range-key-pair-default"; "running"; "18.0.0.1"]]
      ["Name"; "Status"; "IP Address"];
    Print (nl ++ "Access Splunk via:" ++ nl ++ tab
           ++ "Web > http://18.0.0.1:8000" ++ nl ++ tab
           ++ "SSH > ssh -i~/.ssh/id_rsa ubuntu@18.0.0.1" ++ nl ++ tab
           ++ "username: admin " ++ nl ++ tab
           ++ "password: Pl3ase-k1Ll-me:p");
    Print (nl ++ "Access Prelude Operator UI via:" ++ nl ++ tab
           ++ "redirector FQDN > 18.0.0.1" ++ nl ++ tab
           ++ "Token: token-123" ++ nl ++ tab
           ++ "See guide details: https://github.com/splunk/attack_range/wiki/Prelude-Operator");
    Print ""]).
Proof.
  exact (show_prelude_message (demo_env_with true [demo_win; demo_splunk])
           demo_self_kali [] eq_refl eq_refl eq_refl).
Defined.

(** ** The lines of the builder *)

(** X13: Whatever the builder writes, each line [packer] prints has no
    whitespace left at either end. *)
Theorem packer_prints_stripped (env : environment) (img : string)
        (h : history) :
  Forall prints_stripped (snd (packer env img h)).
Proof.
  rewrite packer_run. cbv zeta.
  destruct (supported img); [|repeat constructor].
  destruct (popen env _ _) as [e|proc]; [repeat constructor|].
  do 2 (constructor; [exact I|]).
  apply Forall_forall. intros e He.
  apply in_map_iff in He. destruct He as [b [<- Hb]].
  apply in_map_iff in Hb. destruct Hb as [line [<- _]].
  apply strip_stripped.
Qed.
